(** * Platformer: the screen state machine and the gameplay physics step

    A shallow embedding of [src/routes/+page.svelte] (the class-based page:
    [StateManager], [GameplayState]) and of the sprite library it imports
    ([Sprite.update]).

    Numbers.  A TypeScript [number] is an IEEE 754 binary64 value, and the
    kernel's primitive [float] is exactly that format with round-to-nearest-even
    arithmetic, one NaN, signed zeros and the IEEE comparisons ([<?], [<=?]
    and [=?] answer [false] as soon as an operand is NaN, as [<], [<=], [>=]
    and [==] do in JavaScript).  So [a + b], [a - b], [a * b] and [- a] below
    are the very operations the browser performs; [a >= b] is written
    [b <=? a] and [a > b] is written [b <? a].  A decimal literal such as
    [0.8] stands for the binary64 number nearest to it, as it does in the
    source.

    Objects.  [game.keys] is a JavaScript object used as a map from key codes
    to booleans: a [gmap string bool], where a missing key reads as
    [undefined], which is falsy.  [sprites] is a [Map<string, Sprite>]: a
    [gmap string Sprite.t], absent until [enter] has resolved (it rejects when
    an image fails to load, and the game loop ends with it).

    Effects.  Methods mutate [this]; here every method takes the object and
    returns the new one.  The [StateManager] is one object shared by the three
    screens, so it is threaded through [GameplayState.update] next to the
    screen's own fields.  An observer callback acts on a world [W] of its own. *)

From Stdlib Require Import Floats ZArith NArith Bool List Lia.
From stdpp Require Import base option gmap strings.

Set Warnings "-inexact-float".
Open Scope float_scope.

(** ** GameState and StateManager *)

Inductive GameState : Set := MENU | GAMEPLAY | PAUSE.

Module StateManager.
Section WithWorld.

(** What an observer callback can read and write. *)
Context {W : Type}.

Record t : Type := mk {
  currentState : GameState;
  onStateChange : option (GameState -> W -> W)
}.

(** [private currentState: GameState = 'MENU'; private onStateChange?] *)
Definition new : t := {| currentState := MENU; onStateChange := None |}.

Definition getCurrentState (this : t) : GameState := currentState this.

(** [setState] is declared [async] but holds no [await]: its body runs to
    the end inside the caller, the promise it returns is already settled.
    The result is the manager and the world as they are when the call
    returns. *)
Definition setState (newState : GameState) (this : t) (w : W) : t * W :=
  let this := {| currentState := newState; onStateChange := onStateChange this |} in
  match onStateChange this with
  | Some callback => (this, callback newState w)
  | None => (this, w)
  end.

Definition onStateChanged (callback : GameState -> W -> W) (this : t) : t :=
  {| currentState := currentState this; onStateChange := Some callback |}.

End WithWorld.
Arguments t : clear implicits.
End StateManager.

(** ** Sprite (the animation clock only; the image is not modelled) *)

Module Sprite.

(** Frame counts and indices are whole numbers in every caller; the two
    times and the speed are milliseconds as [number]. *)
Record t : Set := mk {
  frameWidth : float;
  frameHeight : float;
  totalFrames : N;
  currentFrame : N;
  animationSpeed : float;
  lastFrameTime : float
}.

(** [constructor(image, frameWidth, frameHeight, totalFrames = 1,
    animationSpeed = 100)] *)
Definition new (frameWidth frameHeight : float) (totalFrames : option N)
    (animationSpeed : option float) : t :=
  {| frameWidth := frameWidth; frameHeight := frameHeight;
     totalFrames := default 1%N totalFrames;
     currentFrame := 0%N;
     animationSpeed := default 100 animationSpeed;
     lastFrameTime := 0 |}.

Definition update (currentTime : float) (this : t) : t :=
  if (totalFrames this <=? 1)%N then this
  else if animationSpeed this <=? currentTime - lastFrameTime this then
    {| frameWidth := frameWidth this; frameHeight := frameHeight this;
       totalFrames := totalFrames this;
       currentFrame := ((currentFrame this + 1) mod totalFrames this)%N;
       animationSpeed := animationSpeed this;
       lastFrameTime := currentTime |}
  else this.

(** [resetAnimation()] and [setAnimationSpeed(speed)]. *)
Definition resetAnimation (this : t) : t :=
  {| frameWidth := frameWidth this; frameHeight := frameHeight this;
     totalFrames := totalFrames this; currentFrame := 0%N;
     animationSpeed := animationSpeed this; lastFrameTime := 0 |}.

Definition setAnimationSpeed (speed : float) (this : t) : t :=
  {| frameWidth := frameWidth this; frameHeight := frameHeight this;
     totalFrames := totalFrames this; currentFrame := currentFrame this;
     animationSpeed := speed; lastFrameTime := lastFrameTime this |}.

(** The calls that change a sprite, and runs of them. *)
Inductive call : Set :=
| Update (currentTime : float)
| ResetAnimation
| SetAnimationSpeed (speed : float).

Definition apply (c : call) (this : t) : t :=
  match c with
  | Update currentTime => update currentTime this
  | ResetAnimation => resetAnimation this
  | SetAnimationSpeed speed => setAnimationSpeed speed this
  end.

Definition run (calls : list call) (this : t) : t :=
  fold_left (fun this c => apply c this) calls this.

End Sprite.

(** [initializeSprites]: the five placeholder sprites, once loaded. *)
Definition initializeSprites : gmap string Sprite.t :=
<["background" := Sprite.new 64 64 (Some 1%N) None]>
(<["platform" := Sprite.new 32 16 (Some 1%N) None]>
(<["enemy_basic" := Sprite.new 16 16 (Some 1%N) None]>
(<["player_walk" := Sprite.new 64 16 (Some 1%N) (Some 150)]>
(<["player_idle" := Sprite.new 16 16 (Some 1%N) None]> ∅)))).

(** ** The gameplay screen *)

Abbreviation KeysObject := (gmap string bool).

(** [keys[code]] in a condition: [undefined] and [false] are falsy. *)
Definition held (keys : KeysObject) (code : string) : bool :=
default false (keys !! code).

Module game.
Record t : Type := mk {
  width : float;
  height : float;
  keys : KeysObject;
  gravity : float;
  groundY : float
}.
End game.

Module player.
Record t : Set := mk {
  x : float;
  y : float;
  width : float;
  height : float;
  velocityX : float;
  velocityY : float;
  speed : float;
  jumpPower : float;
  onGround : bool;
  color : string
}.

(** Assignments to the five fields the physics step writes. *)
Definition set_x (v : float) (p : t) : t :=
  mk v (y p) (width p) (height p) (velocityX p) (velocityY p) (speed p) (jumpPower p) (onGround p) (color p).
Definition set_y (v : float) (p : t) : t :=
  mk (x p) v (width p) (height p) (velocityX p) (velocityY p) (speed p) (jumpPower p) (onGround p) (color p).
Definition set_velocityX (v : float) (p : t) : t :=
  mk (x p) (y p) (width p) (height p) v (velocityY p) (speed p) (jumpPower p) (onGround p) (color p).
Definition set_velocityY (v : float) (p : t) : t :=
  mk (x p) (y p) (width p) (height p) (velocityX p) v (speed p) (jumpPower p) (onGround p) (color p).
Definition set_onGround (b : bool) (p : t) : t :=
  mk (x p) (y p) (width p) (height p) (velocityX p) (velocityY p) (speed p) (jumpPower p) b (color p).
End player.

(** The canvas element, as far as the gameplay screen uses it: its two
  dimension attributes, whether a 2d context can be had, and the
  [clientWidth] of its parent element when it has one. *)
Module canvas.
Record t : Set := mk {
  width : float;
  height : float;
  context2d : bool;
  parentClientWidth : option float
}.
End canvas.

(** [a || b] on numbers: [0], [-0] and [NaN] are falsy. *)
Definition orElse (a b : float) : float :=
if (a =? 0) || is_nan a then b else a.

Module GameplayState.

Record t : Type := mk {
  canvas : canvas.t;
  game : game.t;
  player : player.t;
  sprites : option (gmap string Sprite.t)
}.

(** *** The physics step, in the order of [update] *)

(** [// Horizontal movement] *)
Definition horizontalMovement (g : game.t) (p : player.t) : player.t :=
  if held (game.keys g) "KeyA" then player.set_velocityX (- player.speed p) p
  else if held (game.keys g) "KeyD" then player.set_velocityX (player.speed p) p
  else player.set_velocityX (player.velocityX p * 0.8) p.

(** [// Jumping] *)
Definition jumping (g : game.t) (p : player.t) : player.t :=
  if held (game.keys g) "Space" && player.onGround p
  then player.set_onGround false (player.set_velocityY (- player.jumpPower p) p)
  else p.

(** [// Apply gravity] *)
Definition applyGravity (g : game.t) (p : player.t) : player.t :=
  if negb (player.onGround p)
  then player.set_velocityY (player.velocityY p + game.gravity g) p
  else p.

(** [// Update position] *)
Definition updatePosition (p : player.t) : player.t :=
  let p := player.set_x (player.x p + player.velocityX p) p in
  player.set_y (player.y p + player.velocityY p) p.

(** [// Ground collision] *)
Definition groundCollision (g : game.t) (p : player.t) : player.t :=
  if game.groundY g <=? player.y p + player.height p
  then
    let p := player.set_y (game.groundY g - player.height p) p in
    let p := player.set_velocityY 0 p in
    player.set_onGround true p
  else p.

(** [// Keep player in bounds horizontally] *)
Definition keepInBounds (g : game.t) (p : player.t) : player.t :=
  if player.x p <? 0
  then player.set_velocityX 0 (player.set_x 0 p)
  else if game.width g <? player.x p + player.width p
  then player.set_velocityX 0 (player.set_x (game.width g - player.width p) p)
  else p.

(** The player as the integration step leaves it, before the two clamps. *)
Definition integrated (g : game.t) (p : player.t) : player.t :=
  updatePosition (applyGravity g (jumping g (horizontalMovement g p))).

Definition physics (g : game.t) (p : player.t) : player.t :=
  keepInBounds g (groundCollision g (integrated g p)).

(** [this.sprites.forEach(sprite => sprite.update(performance.now()))]:
    each sprite reads the clock for itself; [now id] is the reading that
    the sprite stored under [id] gets. *)
Definition updateSprites (now : string -> float)
    (sprites : option (gmap string Sprite.t)) : option (gmap string Sprite.t) :=
  match sprites with
  | Some m => Some (map_imap (fun id sprite => Some (Sprite.update (now id) sprite)) m)
  | None => None
  end.

Section WithWorld.
Context {W : Type}.

(** [public update(): void].  The screen, the shared state manager and the
    observer's world go in and come out. *)
Definition update (now : string -> float) (this : t)
    (stateManager : StateManager.t W) (w : W) : t * StateManager.t W * W :=
  let p := physics (game this) (player this) in
  let '(stateManager, w) :=
    if held (game.keys (game this)) "Escape"
    then StateManager.setState PAUSE stateManager w
    else (stateManager, w) in
  (mk (canvas this) (game this) p (updateSprites now (sprites this)), stateManager, w).

End WithWorld.

(** One [update()], looking at the screen only (the state manager of the
    call is a fresh one without observer). *)
Definition tick (now : string -> float) (this : t) : t :=
  (update (W := unit) now this StateManager.new tt).1.1.

(** [public async enter()].  [initializeSprites] awaits the five image loads
    of [loadBatch]: its promise resolves with the five sprites once every
    image has loaded, and rejects when one of them fails to load.  In the
    first case [enter] assigns [this.sprites]; in the second the assignment is
    never made and the promise of [enter] rejects as well.  [loaded] tells
    which of the two happens; [None] is the rejection. *)
Definition enter (loaded : bool) (this : t) : option t :=
  if loaded then Some (mk (canvas this) (game this) (player this) (Some initializeSprites))
  else None.

(** [setupInputHandling]: the two document listeners. *)
Definition keydown (code : string) (this : t) : t :=
  let g := game this in
  mk (canvas this)
     (game.mk (game.width g) (game.height g) (<[code := true]> (game.keys g))
              (game.gravity g) (game.groundY g))
     (player this) (sprites this).

Definition keyup (code : string) (this : t) : t :=
  let g := game this in
  mk (canvas this)
     (game.mk (game.width g) (game.height g) (<[code := false]> (game.keys g))
              (game.gravity g) (game.groundY g))
     (player this) (sprites this).

Section Host.

(** The canvas keeps its dimensions as [unsigned long]: what is read back
    after [canvas.width = v] is the host's conversion of [v], which is not
    code of this repository.  It is the identity on the whole numbers a
    canvas can hold. *)
Variable unsignedLong : float -> float.

(** [resizeCanvas], the listener that [setupResizeHandling] installs and
    calls once. *)
Definition resizeCanvas (this : t) : t :=
  let c := canvas this in
  let containerWidth := orElse (default nan (canvas.parentClientWidth c)) 800 in
  let aspectRatio := 800 / 400 in
  let scaleX := containerWidth / 800 in
  let scaleY := (containerWidth / aspectRatio) / 400 in
  let c := canvas.mk (unsignedLong containerWidth)
                     (unsignedLong (containerWidth / aspectRatio))
                     (canvas.context2d c) (canvas.parentClientWidth c) in
  let g := game this in
  let groundY := canvas.height c - (40 * scaleY) in
  let p := player this in
  let height := 32 * scaleY in
  mk c
     (game.mk (canvas.width c) (canvas.height c) (game.keys g) (0.5 * scaleY) groundY)
     (player.mk (player.x p * scaleX) (groundY - height) (24 * scaleX) height
                (player.velocityX p) (player.velocityY p)
                (4 * scaleX) (12 * scaleY) (player.onGround p) (player.color p))
     (sprites this).

(** [constructor(canvas, stateManager)]; [None] is the thrown
    ['Issue with Rendering Context']. *)
Definition new (c : canvas.t) : option t :=
  if canvas.context2d c then
    let g := game.mk (canvas.width c) (canvas.height c) ∅ 0.5 (canvas.height c - 40) in
    let p := player.mk 100 (game.groundY g - 32) 24 32 0 0 4 12 false "#FF6B6B" in
    Some (resizeCanvas (mk c g p None))
  else None.

End Host.

End GameplayState.


(** ** The driver *)

Module App.
Section WithWorld.
Context {W : Type}.

(** What [onMount] builds: the one state manager that the screens share, the
    gameplay screen, and the observer's world; and, on the browser's side,
    whether a call of [gameLoop] is requested for the next animation frame.
    (The menu and pause screens keep nothing but the rectangles of their
    buttons.) *)
Record t : Type := mk {
  stateManager : StateManager.t W;
  gameplayState : GameplayState.t;
  world : W;
  frameRequested : bool
}.

(** Whether the five placeholder images load when the gameplay screen is
    entered.  A session finds out at most once: after a failure no frame runs
    any more, after a success the sprites are there. *)
Variable loaded : bool.

(** [requestAnimationFrame(gameLoop)] *)
Definition requestAnimationFrame (app : t) : t :=
  mk (stateManager app) (gameplayState app) (world app) true.

(** One call of [async function gameLoop()], rendering left out.
    [menuState.update()] and [pauseState.update()] have empty bodies.  In
    Gameplay without sprites the call waits for [enter]: until then it has
    only read the current state, and it goes on with [update] when the sprites
    are there.  The call is taken here from the end of that wait; what
    arrives during the wait comes before it ([wait_in_gameplay] below shows
    that the state which the call has read is still the state then).  When
    [enter] rejects, so does the call: [update] is not reached, and neither is
    the request for the next frame at the end of the body, so that no frame
    follows. *)
Definition gameLoop (now : string -> float) (app : t) : t :=
  match StateManager.getCurrentState (stateManager app) with
  | MENU => requestAnimationFrame app
  | GAMEPLAY =>
      let entered :=
        match GameplayState.sprites (gameplayState app) with
        | None => GameplayState.enter loaded (gameplayState app)
        | Some _ => Some (gameplayState app)
        end in
      match entered with
      | Some gameplayState =>
          let '(gameplayState, stateManager, w) :=
            GameplayState.update now gameplayState (stateManager app) (world app) in
          requestAnimationFrame (mk stateManager gameplayState w false)
      | None => mk (stateManager app) (gameplayState app) (world app) false
      end
  | PAUSE => requestAnimationFrame app
  end.

End WithWorld.
Arguments t : clear implicits.
End App.

(** ** The gameplay screen over time *)

Section Session.
Variable unsignedLong : float -> float.

(** What happens to the gameplay screen after its construction: an animation
    frame that reaches [update], a key going down or up, and a resize of the
    window, after which the parent element, if there is one, has a new
    [clientWidth]. *)
Inductive event : Type :=
| Tick (now : string -> float)
| KeyDown (code : string)
| KeyUp (code : string)
| Resize (clientWidth : float).

Definition handle (e : event) (this : GameplayState.t) : GameplayState.t :=
  match e with
  | Tick now => GameplayState.tick now this
  | KeyDown code => GameplayState.keydown code this
  | KeyUp code => GameplayState.keyup code this
  | Resize clientWidth =>
      let c := GameplayState.canvas this in
      let parentClientWidth :=
        match canvas.parentClientWidth c with Some _ => Some clientWidth | None => None end in
      GameplayState.resizeCanvas unsignedLong
        (GameplayState.mk
           (canvas.mk (canvas.width c) (canvas.height c) (canvas.context2d c) parentClientWidth)
           (GameplayState.game this) (GameplayState.player this) (GameplayState.sprites this))
  end.

(** The screens that a session can show: the constructed one, and whatever the
    events make of it. *)
Inductive reachable : GameplayState.t -> Prop :=
| reachable_new c this :
    GameplayState.new unsignedLong c = Some this -> reachable this
| reachable_handle e this :
    reachable this -> reachable (handle e this).

End Session.

(** The integer part of a number in [0, 2^52): on a container width and on its
    half, this is what the canvas hands back for its [unsigned long]
    dimensions.  Used to build concrete screens. *)
Definition integerPart (v : float) : float :=
  let r := (v + 0x1p52) - 0x1p52 in
  if v <? r then r - 1 else r.

(** The gameplay screen of a page whose canvas (300 x 150 before the first
    resize) sits in a container [clientWidth] pixels wide. *)
Definition screenOfWidth (clientWidth : float) : option GameplayState.t :=
  GameplayState.new integerPart (canvas.mk 300 150 true (Some clientWidth)).

(** [n] ticks in a row. *)
Fixpoint ticks (n : nat) (now : string -> float) (this : GameplayState.t) : GameplayState.t :=
  match n with
  | O => this
  | S n => ticks n now (GameplayState.tick now this)
  end.

(** ** Numbers *)

(** The same number: [===], or both [NaN]. *)
Definition sameNumber (a b : float) : Prop := a = b \/ (a =? b) = true.

(** The fall of y, velocityY and onGround alone over one tick in which no
    jump starts: gravity, integration, ground collision. *)
Definition fall (gravity groundY height : float) (v : float * float * bool) : float * float * bool :=
  let '(y, velocityY, onGround) := v in
  let velocityY := if negb onGround then velocityY + gravity else velocityY in
  let y := y + velocityY in
  if groundY <=? y + height then (groundY - height, 0, true) else (y, velocityY, onGround).

Definition vertical (p : player.t) : float * float * bool :=
  (player.y p, player.velocityY p, player.onGround p).

(** [n] falls in a row. *)
Fixpoint falls (n : nat) (gravity groundY height : float) (v : float * float * bool) :
    float * float * bool :=
  match n with
  | O => v
  | S n => falls n gravity groundY height (fall gravity groundY height v)
  end.

(** [100 + 0.5*1 + 0.5*2 + ... + 0.5*n], summed from the left as written;
    [fallSum n k y] adds the [n] terms after the [k]-th to [y]. *)
Fixpoint fallSum (n : nat) (k y : float) : float :=
  match n with
  | O => y
  | S n => fallSum n (k + 1) (y + 0.5 * (k + 1))
  end.

Definition fallY (n : nat) : float := fallSum n 0 100.

(** ** Runs of calls, for the statements below *)

Section Runs.
Context {W : Type}.
Implicit Types (this : StateManager.t W) (w : W) (s : GameState).

(** A run of [setState] calls, oldest first. *)
Fixpoint setStates (args : list GameState) this w : StateManager.t W * W :=
  match args with
  | [] => (this, w)
  | s :: args => let '(this, w) := StateManager.setState s this w in setStates args this w
  end.

(** What the observer slot does to the world when it is told [s]. *)
Definition notify (slot : option (GameState -> W -> W)) s w : W :=
  match slot with
  | Some callback => callback s w
  | None => w
  end.

(** The manager as the page can have it before the first transition: fresh,
    with or without an observer. *)
Definition fresh (slot : option (GameState -> W -> W)) : StateManager.t W :=
  match slot with
  | Some callback => StateManager.onStateChanged callback StateManager.new
  | None => StateManager.new
  end.

End Runs.

(** ** Frames *)

(** What the six steps of the physics leave alone in the player. *)
Definition sameTunables (p p' : player.t) : Prop :=
  player.width p' = player.width p /\ player.height p' = player.height p
  /\ player.speed p' = player.speed p /\ player.jumpPower p' = player.jumpPower p
  /\ player.color p' = player.color p.

(** The tunables of the gameplay screen: the player's size, speed and jump
    power, and the game's gravity, ground line and size. *)
Definition tunables (this : GameplayState.t) : list float :=
  let p := GameplayState.player this in
  let g := GameplayState.game this in
  [player.width p; player.height p; player.speed p; player.jumpPower p;
   game.gravity g; game.groundY g; game.width g; game.height g].

Definition isResize (e : event) : bool :=
  match e with Resize _ => true | _ => false end.

(** ** Concrete screens *)

(** The key map in which exactly the given codes are held. *)
Definition keysHeld (codes : list string) : KeysObject :=
  foldr (fun code keys => <[code := true]> keys) ∅ codes.

(** The game of the 800 x 400 layout (scale 1): ground line at 360. *)
Definition game800 (keys : KeysObject) : game.t := game.mk 800 400 keys 0.5 360.

(** The player of that layout, at [x] with horizontal velocity [velocityX],
    at rest on the ground. *)
Definition standingAt (x velocityX : float) : player.t :=
  player.mk x 328 24 32 velocityX 0 4 12 true "#FF6B6B".

Definition standing : player.t := standingAt 100 0.

(** The game with another key map. *)
Definition withKeys (keys : KeysObject) (g : game.t) : game.t :=
  game.mk (game.width g) (game.height g) keys (game.gravity g) (game.groundY g).

(** ** Ground contact *)

(** The player's side of the ground contact: when onGround is set, the player
    does not move vertically and sits where the clamp puts it. *)
Definition grounded (this : GameplayState.t) : Prop :=
  let p := GameplayState.player this in
  let g := GameplayState.game this in
  player.onGround p = true ->
  player.velocityY p = 0 /\ sameNumber (player.y p) (game.groundY g - player.height p).

(** ** The order of binary64 numbers *)

(** The value of a number that is not NaN, in units of 2^-1074 (every
    binary64 number is a whole multiple of it); the infinities are given
    2^1024, which no finite number reaches. *)
Definition SFvalue (f : spec_float) : Z :=
  match f with
  | S754_zero _ => 0
  | S754_infinity s => if s then - 2 ^ 2098 else 2 ^ 2098
  | S754_nan => 0
  | S754_finite s m e => if s then - (Zpos m * 2 ^ (e + 1074)) else Zpos m * 2 ^ (e + 1074)
  end%Z.

(** A record that stands for [N] shifted right by [k] bits: its mantissa is
    the quotient, and its two flags are clear exactly when nothing was lost. *)
Definition shifted (N k : Z) (mrs : shr_record) : Prop :=
  shr_m mrs = (N / 2 ^ k)%Z /\ (shr_r mrs || shr_s mrs = false <-> (N mod 2 ^ k = 0)%Z).


(** Is a player of this width no wider than the surface?  Every screen that
    the constructor and the resize handler make is checked by this on widths
    of its container. *)
Fixpoint fitsFrom (n : nat) (clientWidth : float) : bool :=
  match n with
  | O => true
  | S n =>
      match screenOfWidth clientWidth with
      | Some this =>
          (player.width (GameplayState.player this) <=? game.width (GameplayState.game this))
          && fitsFrom n (clientWidth + 1)
      | None => false
      end
  end.

(** ** The menu and pause screens *)

(** [Math.max(a, b)]: NaN if either is NaN, and [+0] counts as larger than
    [-0]. *)
Definition Math_max (a b : float) : float :=
  if is_nan a || is_nan b then nan
  else if a <? b then b
  else if b <? a then a
  else match classify a with NZero => b | _ => a end.

Module rect.
Record t : Set := mk { x : float; y : float; width : float; height : float }.
End rect.

(** A click as its listener sees it: the pointer's [clientX] and [clientY],
    and the [left] and [top] of the canvas's bounding rectangle at that
    time. *)
Module click.
Record t : Set := mk { clientX : float; clientY : float; left : float; top : float }.
End click.

(** The test that both click listeners write out: the point lies in the
    rectangle, edges included.  (It is [PauseState.isClickInButton].) *)
Definition isClickInButton (clickX clickY : float) (button : rect.t) : bool :=
  (rect.x button <=? clickX) && (clickX <=? rect.x button + rect.width button)
  && (rect.y button <=? clickY) && (clickY <=? rect.y button + rect.height button).

Module MenuState.

(** The canvas and the state manager are the shared ones; the screen's own
    state is the rectangle of its button. *)
Record t : Set := mk { buttonRect : rect.t }.

(** [constructor(canvas, stateManager)]; [None] is the thrown error. *)
Definition new (c : canvas.t) : option t :=
  if canvas.context2d c then Some (mk (rect.mk 0 0 200 60)) else None.

Section WithWorld.
Context {W : Type}.

(** The listener of [setupClickHandling]. *)
Definition onClick (e : click.t) (this : t)
    (stateManager : StateManager.t W) (w : W) : StateManager.t W * W :=
  let clickX := click.clientX e - click.left e in
  let clickY := click.clientY e - click.top e in
  if isClickInButton clickX clickY (buttonRect this)
  then StateManager.setState GAMEPLAY stateManager w
  else (stateManager, w).

End WithWorld.

(** [render()], as far as it writes to the screen's state: the rectangle of
    the button for the canvas as it is.  (What it paints is not modelled.) *)
Definition render (c : canvas.t) (this : t) : t :=
  let buttonWidth := Math_max 200 (canvas.width c * 0.25) in
  let buttonHeight := Math_max 60 (canvas.height c * 0.15) in
  let buttonX := (canvas.width c - buttonWidth) / 2 in
  let buttonY := (canvas.height c - buttonHeight) / 2 in
  mk (rect.mk buttonX buttonY buttonWidth buttonHeight).

End MenuState.

Module PauseState.

Record buttons_t : Set := mk_buttons { resume : rect.t; save : rect.t; quit : rect.t }.

Record t : Set := mk { buttons : buttons_t }.

Definition new (c : canvas.t) : option t :=
  if canvas.context2d c
  then Some (mk (mk_buttons (rect.mk 0 0 200 60) (rect.mk 0 0 200 60) (rect.mk 0 0 200 60)))
  else None.

(** [saveGame()]: [JSON.stringify({})] is the text of the empty object. *)
Definition saveGame (localStorage : gmap string string) : gmap string string :=
  <["gameState" := "{}"]> localStorage.

Section WithWorld.
Context {W : Type}.

(** The listener of [setupClickHandling]: the first button hit, in the order
    resume, save, quit. *)
Definition onClick (e : click.t) (this : t)
    (stateManager : StateManager.t W) (w : W) (localStorage : gmap string string) :
    StateManager.t W * W * gmap string string :=
  let clickX := click.clientX e - click.left e in
  let clickY := click.clientY e - click.top e in
  if isClickInButton clickX clickY (resume (buttons this))
  then (StateManager.setState GAMEPLAY stateManager w, localStorage)
  else if isClickInButton clickX clickY (save (buttons this))
  then (stateManager, w, saveGame localStorage)
  else if isClickInButton clickX clickY (quit (buttons this))
  then (StateManager.setState MENU stateManager w, localStorage)
  else (stateManager, w, localStorage).

End WithWorld.

(** [render()], as far as it writes to the screen's state: the three
    rectangles. *)
Definition render (c : canvas.t) (this : t) : t :=
  let modalWidth := Math_max 300 (canvas.width c * 0.4) in
  let modalHeight := Math_max 250 (canvas.height c * 0.5) in
  let modalX := (canvas.width c - modalWidth) / 2 in
  let modalY := (canvas.height c - modalHeight) / 2 in
  let buttonWidth := Math_max 180 (modalWidth * 0.6) in
  let buttonHeight := Math_max 40 (modalHeight * 0.15) in
  let buttonSpacing := buttonHeight + 20 in
  let startY := modalY + modalHeight * 0.35 in
  mk (mk_buttons
        (rect.mk ((canvas.width c - buttonWidth) / 2) startY buttonWidth buttonHeight)
        (rect.mk ((canvas.width c - buttonWidth) / 2) (startY + buttonSpacing)
                 buttonWidth buttonHeight)
        (rect.mk ((canvas.width c - buttonWidth) / 2) (startY + buttonSpacing * 2)
                 buttonWidth buttonHeight)).

End PauseState.

(** ** The page *)

Module Page.
Section WithWorld.
Context {W : Type}.

(** Everything that [onMount] sets up: the state manager, the three screens
    on one canvas (the one that the gameplay screen's record holds), and the
    browser's local storage. *)
Record t : Type := mk {
  app : App.t W;
  menuState : MenuState.t;
  pauseState : PauseState.t;
  localStorage : gmap string string
}.

Variable unsignedLong : float -> float.
Variable loaded : bool.

(** One call of [gameLoop], with what the renders write: the state read at
    the start of the call picks the screen that is updated and rendered.
    (The gameplay screen's [render] writes nothing, and is not reached when
    [enter] rejects.) *)
Definition gameLoop (now : string -> float) (page : t) : t :=
  let app' := App.gameLoop loaded now (app page) in
  let c := GameplayState.canvas (App.gameplayState app') in
  match StateManager.getCurrentState (App.stateManager (app page)) with
  | MENU => mk app' (MenuState.render c (menuState page)) (pauseState page) (localStorage page)
  | GAMEPLAY => mk app' (menuState page) (pauseState page) (localStorage page)
  | PAUSE => mk app' (menuState page) (PauseState.render c (pauseState page)) (localStorage page)
  end.

(** [onMount]: the three constructors in their order, each on the canvas as
    its predecessors left it, and then the first call of [gameLoop], which
    runs before [onMount] returns; [None] when no 2d context can be had. *)
Definition onMount (now : string -> float) (c : canvas.t) (w : W)
    (localStorage : gmap string string) : option t :=
  match MenuState.new c with
  | None => None
  | Some menuState =>
      match GameplayState.new unsignedLong c with
      | None => None
      | Some gameplayState =>
          match PauseState.new (GameplayState.canvas gameplayState) with
          | None => None
          | Some pauseState =>
              Some (gameLoop now
                      (mk (App.mk StateManager.new gameplayState w false)
                          menuState pauseState localStorage))
          end
      end
  end.

(** A click on the canvas: the menu's listener, registered first, then the
    pause screen's.  Neither is ever removed, neither looks at the current
    state. *)
Definition onClick (e : click.t) (page : t) : t :=
  let a := app page in
  let '(stateManager, w) :=
    MenuState.onClick e (menuState page) (App.stateManager a) (App.world a) in
  let '(stateManager, w, localStorage) :=
    PauseState.onClick e (pauseState page) stateManager w (localStorage page) in
  mk (App.mk stateManager (App.gameplayState a) w (App.frameRequested a))
     (menuState page) (pauseState page) localStorage.

(** What can happen to the page: an animation frame, a click on the canvas,
    a key going down or up, a resize of the window. *)
Inductive action : Type :=
| Frame (now : string -> float)
| Click (e : click.t)
| Pressed (code : string)
| Released (code : string)
| Resized (clientWidth : float).

(** The gameplay screen's listeners are the only ones for keys and
    resizes. *)
Definition onGameplay (f : GameplayState.t -> GameplayState.t) (page : t) : t :=
  mk (App.mk (App.stateManager (app page)) (f (App.gameplayState (app page)))
             (App.world (app page)) (App.frameRequested (app page)))
     (menuState page) (pauseState page) (localStorage page).

(** An animation frame runs the call of [gameLoop] that was requested, if one
    was. *)
Definition handle (a : action) (page : t) : t :=
  match a with
  | Frame now => if App.frameRequested (app page) then gameLoop now page else page
  | Click e => onClick e page
  | Pressed code => onGameplay (handle unsignedLong (KeyDown code)) page
  | Released code => onGameplay (handle unsignedLong (KeyUp code)) page
  | Resized clientWidth => onGameplay (handle unsignedLong (Resize clientWidth)) page
  end.

Definition run (actions : list action) (page : t) : t :=
  fold_left (fun page a => handle a page) actions page.

End WithWorld.
Arguments t : clear implicits.
End Page.

(** ** The page before the classes *)

(** [updatePlayer] of the first version of the page ([src/routes/+page.svelte]
    with the game in one closure), which moves with the arrow keys. *)
Definition updatePlayer (g : game.t) (p : player.t) : player.t :=
  let p :=
    if held (game.keys g) "ArrowLeft" then player.set_velocityX (- player.speed p) p
    else if held (game.keys g) "ArrowRight" then player.set_velocityX (player.speed p) p
    else player.set_velocityX (player.velocityX p * 0.8) p in
  let p :=
    if held (game.keys g) "Space" && player.onGround p
    then player.set_onGround false (player.set_velocityY (- player.jumpPower p) p)
    else p in
  let p :=
    if negb (player.onGround p)
    then player.set_velocityY (player.velocityY p + game.gravity g) p
    else p in
  let p := player.set_x (player.x p + player.velocityX p) p in
  let p := player.set_y (player.y p + player.velocityY p) p in
  let p :=
    if game.groundY g <=? player.y p + player.height p
    then player.set_onGround true
           (player.set_velocityY 0 (player.set_y (game.groundY g - player.height p) p))
    else p in
  if player.x p <? 0 then player.set_velocityX 0 (player.set_x 0 p)
  else if game.width g <? player.x p + player.width p
  then player.set_velocityX 0 (player.set_x (game.width g - player.width p) p)
  else p.

(** The arrow keys for A and D. *)
Definition arrowsForLetters (keys : KeysObject) : KeysObject :=
  <["ArrowLeft" := held keys "KeyA"]> (<["ArrowRight" := held keys "KeyD"]> keys).

(** ** The sprite loader *)

Module SpriteLoader.

(** An [Image] object: the [serial] tells the objects apart, [src] is the
    url it was given. *)
Record image : Set := mk_image { serial : nat; src : string }.

(** The loader's two maps; and, on the browser's side, the images whose load
    or error event is yet to come, each with the [id] that its two handlers
    hold, and the number of images made so far.  The promise of a load is
    named by the serial of its image. *)
Record t : Set := mk {
  cache : gmap string image;
  loading : gmap string nat;
  pending : gmap nat (string * image);
  images : nat
}.

Definition new : t := mk ∅ ∅ ∅ 0.

(** What [load] hands back: the cached image, or the promise of a fetch
    (one already under way, or the one just started). *)
Inductive handle : Set :=
| Cached (img : image)
| Promised (promise : nat).

(** [load(id, url)] up to its return: the promise's executor runs at once and
    sets the image's [src], which starts the fetch. *)
Definition load (id url : string) (this : t) : t * handle :=
  match cache this !! id with
  | Some img => (this, Cached img)
  | None =>
      match loading this !! id with
      | Some promise => (this, Promised promise)
      | None =>
          let img := mk_image (images this) url in
          (mk (cache this) (<[id := serial img]> (loading this))
              (<[serial img := (id, img)]> (pending this)) (S (images this)),
           Promised (serial img))
      end
  end.

(** The [onload] handler of the image with this serial, when its event
    comes (it comes at most once, for an image that is still pending). *)
Definition onload (n : nat) (this : t) : t :=
  match pending this !! n with
  | Some (id, img) =>
      mk (<[id := img]> (cache this)) (delete id (loading this))
         (delete n (pending this)) (images this)
  | None => this
  end.

(** Its [onerror] handler. *)
Definition onerror (n : nat) (this : t) : t :=
  match pending this !! n with
  | Some (id, img) =>
      mk (cache this) (delete id (loading this)) (delete n (pending this)) (images this)
  | None => this
  end.

(** [loadBatch(sprites)] up to its [await]: the loads, in order. *)
Fixpoint loadBatch (sprites : list (string * string)) (this : t) : t * list handle :=
  match sprites with
  | [] => (this, [])
  | (id, url) :: sprites =>
      let '(this, h) := load id url this in
      let '(this, hs) := loadBatch sprites this in
      (this, h :: hs)
  end.

(** [get(id)], [isLoaded(id)], [isLoading(id)]; [None] is [null]. *)
Definition get (id : string) (this : t) : option image := cache this !! id.

Definition isLoaded (id : string) (this : t) : bool := bool_decide (is_Some (cache this !! id)).

Definition isLoading (id : string) (this : t) : bool :=
  bool_decide (is_Some (loading this !! id)).

(** What can happen to a loader. *)
Inductive action : Set :=
| Load (id url : string)
| OnLoad (n : nat)
| OnError (n : nat).

Definition step (a : action) (this : t) : t :=
  match a with
  | Load id url => (load id url this).1
  | OnLoad n => onload n this
  | OnError n => onerror n this
  end.

Definition run (actions : list action) (this : t) : t :=
  fold_left (fun this a => step a this) actions this.

(** The loader's maps and the browser's pending images tell the same story:
    an id is loading exactly when one pending image is for it, no two pending
    images are for the same id, nothing is both cached and loading, and the
    serials in use are below the count. *)
Definition consistent (this : t) : Prop :=
  (forall id n, loading this !! id = Some n <->
                exists img, pending this !! n = Some (id, img))
  /\ (forall id, is_Some (cache this !! id) -> loading this !! id = None)
  /\ (forall n id img, pending this !! n = Some (id, img) ->
                       serial img = n /\ n < images this)%nat.

End SpriteLoader.

(** The batch of [initializeSprites]. *)
Definition placeholderBatch : list (string * string) :=
  [("player_idle", "https://picsum.photos/16/16");
   ("player_walk", "https://picsum.photos/64/16");
   ("enemy_basic", "https://picsum.photos/16/16");
   ("platform", "https://picsum.photos/32/16");
   ("background", "https://picsum.photos/64/64")].

(** ** Reading a page *)

Definition stateOf {W} (page : Page.t W) : GameState :=
  StateManager.getCurrentState (App.stateManager (Page.app page)).

Definition screenOf {W} (page : Page.t W) : GameplayState.t :=
  App.gameplayState (Page.app page).

Definition slotOf {W} (page : Page.t W) : option (GameState -> W -> W) :=
  StateManager.onStateChange (App.stateManager (Page.app page)).

(** Does a frame in Gameplay get to [update]?  It does when the screen has its
    sprites, and when it gets them now. *)
Definition entered (loaded : bool) (this : GameplayState.t) : bool :=
  match GameplayState.sprites this with Some _ => true | None => loaded end.

(** The screen with its sprites, as [update] finds it then. *)
Definition withSprites (this : GameplayState.t) : GameplayState.t :=
  match GameplayState.sprites this with
  | Some _ => this
  | None =>
      GameplayState.mk (GameplayState.canvas this) (GameplayState.game this)
        (GameplayState.player this) (Some initializeSprites)
  end.

(** Is the click in this rectangle, for its listener? *)
Definition hits (e : click.t) (button : rect.t) : bool :=
  isClickInButton (click.clientX e - click.left e) (click.clientY e - click.top e) button.

Definition isClick (a : Page.action) : bool :=
  match a with Page.Click _ => true | _ => false end.

(** Before any click, the page is in the state Menu and the pause screen has
    never been rendered: its three buttons are the rectangle that they were
    given at construction. *)
Definition untouched {W} (page : Page.t W) : Prop :=
  stateOf page = MENU
  /\ Page.pauseState page
     = PauseState.mk (PauseState.mk_buttons (rect.mk 0 0 200 60) (rect.mk 0 0 200 60)
                        (rect.mk 0 0 200 60)).

(** As long as the gameplay screen has no sprites, [update] has never run: the
    state is not Pause, and the pause screen, never rendered, has its three
    buttons where the constructor put them. *)
Definition neverPaused {W} (page : Page.t W) : Prop :=
  GameplayState.sprites (screenOf page) = None ->
  stateOf page <> PAUSE
  /\ Page.pauseState page
     = PauseState.mk (PauseState.mk_buttons (rect.mk 0 0 200 60) (rect.mk 0 0 200 60)
                        (rect.mk 0 0 200 60)).

Definition isFrame (a : Page.action) : bool :=
  match a with Page.Frame _ => true | _ => false end.

(** A clock that stands still. *)
Definition noClock : string -> float := fun _ => 0.

(** A page to try things on: mounted in a container 800 pixels wide, with an
    observer that keeps a log, the images loading or not. *)
Definition page800 (loaded : bool) : option (Page.t (list GameState)) :=
  (fun page =>
     Page.mk (App.mk (StateManager.onStateChanged (fun s log => log ++ [s])
                        (App.stateManager (Page.app page)))
                (App.gameplayState (Page.app page)) (App.world (Page.app page))
                (App.frameRequested (Page.app page)))
       (Page.menuState page) (Page.pauseState page) (Page.localStorage page))
  <$> Page.onMount integerPart loaded noClock (canvas.mk 300 150 true (Some 800)) [] ∅.

(** A click at a point of the canvas, for a canvas at the page's origin. *)
Definition clickAt (x y : float) : click.t := click.mk x y 0 0.

(** The page of [page800], its images loading, started (a frame, then a click
    on Start) and paused with Escape, the pause screen rendered once, Escape
    still held. *)
Definition paused800 : option (Page.t (list GameState)) :=
  Page.run integerPart true
    [Page.Frame noClock; Page.Click (clickAt 400 200); Page.Pressed "Escape";
     Page.Frame noClock; Page.Frame noClock]
  <$> page800 true.

(* ===================================================================== *)

(** * Properties of the state manager *)

Section StateManagerFacts.
Context {W : Type}.
Implicit Types (this : StateManager.t W) (w : W) (s : GameState)
  (slot : option (GameState -> W -> W)).

Lemma fresh_slot slot : StateManager.onStateChange (fresh slot) = slot.
Proof. now destruct slot. Qed.

Lemma fresh_state slot : StateManager.getCurrentState (fresh slot) = MENU.
Proof. now destruct slot. Qed.

Lemma setState_state s this w :
  StateManager.getCurrentState (StateManager.setState s this w).1 = s.
Proof. unfold StateManager.setState; cbn. now destruct (StateManager.onStateChange this). Qed.

Lemma setState_slot s this w :
  StateManager.onStateChange (StateManager.setState s this w).1
  = StateManager.onStateChange this.
Proof. unfold StateManager.setState; cbn. now destruct (StateManager.onStateChange this). Qed.

Lemma setState_world s this w :
  (StateManager.setState s this w).2 = notify (StateManager.onStateChange this) s w.
Proof. unfold StateManager.setState; cbn. now destruct (StateManager.onStateChange this). Qed.

Lemma setStates_app args1 args2 this w :
  setStates (args1 ++ args2) this w
  = setStates args2 (setStates args1 this w).1 (setStates args1 this w).2.
Proof.
  revert this w; induction args1 as [|s args1 IH]; intros this w; cbn.
  - reflexivity.
  - destruct (StateManager.setState s this w) as [this' w']. apply IH.
Qed.

Lemma setStates_slot args this w :
  StateManager.onStateChange (setStates args this w).1 = StateManager.onStateChange this.
Proof.
  revert this w; induction args as [|s args IH]; intros this w; cbn; [reflexivity|].
  pose proof (setState_slot s this w) as Hs.
  destruct (StateManager.setState s this w) as [this' w']; cbn in Hs.
  now rewrite IH.
Qed.

(** The observer has been told every argument once, oldest first. *)
Lemma setStates_world args this w :
  (setStates args this w).2
  = fold_left (fun w s => notify (StateManager.onStateChange this) s w) args w.
Proof.
  revert this w; induction args as [|s args IH]; intros this w; cbn; [reflexivity|].
  pose proof (setState_slot s this w) as Hs.
  pose proof (setState_world s this w) as Hw.
  destruct (StateManager.setState s this w) as [this' w']; cbn in Hs, Hw.
  rewrite IH, Hs, Hw. reflexivity.
Qed.

Lemma last_cons {A} (l : list A) (a d : A) : List.last (a :: l) d = List.last l a.
Proof.
  revert a d; induction l as [|b l IH]; intros a d; [reflexivity|].
  change (List.last (a :: b :: l) d) with (List.last (b :: l) d).
  rewrite (IH b d), (IH b a). reflexivity.
Qed.

Lemma setStates_state args this w :
  StateManager.getCurrentState (setStates args this w).1
  = List.last args (StateManager.getCurrentState this).
Proof.
  revert this w; induction args as [|s args IH]; intros this w; cbn [setStates]; [reflexivity|].
  pose proof (setState_state s this w) as Hs.
  destruct (StateManager.setState s this w) as [this' w']; cbn in Hs.
  now rewrite IH, Hs, last_cons.
Qed.

(** C1.  Start from a fresh manager (state [MENU]), with an observer
    registered or not, and make any run of [setState] calls.  Whatever the
    calls [before], when the next call [setState s] returns, [getCurrentState]
    answers [s], and the observer, if there is one, has by then been run on
    [s], once, on top of the world that the earlier calls left (in which it
    had been told each earlier argument in turn, the state being the last of
    them, or [MENU] before the first): nothing is deferred to a later call. *)
Theorem C1_setState_is_synchronous
    (slot : option (GameState -> W -> W)) (before : list GameState) s w :
  let earlier := setStates before (fresh slot) w in
  let after := StateManager.setState s earlier.1 earlier.2 in
  StateManager.getCurrentState after.1 = s
  /\ after.2 = notify slot s earlier.2
  /\ StateManager.getCurrentState earlier.1 = List.last before MENU
  /\ earlier.2 = fold_left (fun w s' => notify slot s' w) before w
  /\ setStates (before ++ [s]) (fresh slot) w = after.
Proof.
  cbn zeta. split; [|split; [|split; [|split]]].
  - apply setState_state.
  - now rewrite setState_world, setStates_slot, fresh_slot.
  - now rewrite setStates_state, fresh_state.
  - now rewrite setStates_world, fresh_slot.
  - rewrite setStates_app. cbn.
    now destruct (StateManager.setState s _ _).
Qed.

(** C9.  The observer is one slot.  Registering [f] and then [g] leaves the
    very manager that registering [g] alone leaves; so whatever run of
    [setState] calls follows, the manager and the world end as if [f] had
    never been registered: each call runs [g], and nothing runs [f]. *)
Theorem C9_second_observer_replaces_first
    (f g : GameState -> W -> W) this (args : list GameState) w :
  StateManager.onStateChanged g (StateManager.onStateChanged f this)
  = StateManager.onStateChanged g this
  /\ setStates args (StateManager.onStateChanged g (StateManager.onStateChanged f this)) w
     = setStates args (StateManager.onStateChanged g this) w
  /\ (setStates args (StateManager.onStateChanged g (StateManager.onStateChanged f this)) w).2
     = fold_left (fun w s => g s w) args w.
Proof.
  assert (E : StateManager.onStateChanged g (StateManager.onStateChanged f this)
              = StateManager.onStateChanged g this) by reflexivity.
  split; [exact E|]. split; [now rewrite E|].
  rewrite setStates_world. reflexivity.
Qed.

End StateManagerFacts.

(** With observers that write down who was told what, the log after two
    registrations and three transitions names the second observer only. *)
Example observers_log :
  let f s (log : list (string * GameState)) := log ++ [("f", s)] in
  let g s (log : list (string * GameState)) := log ++ [("g", s)] in
  let this := StateManager.onStateChanged g (StateManager.onStateChanged f StateManager.new) in
  (setStates [GAMEPLAY; PAUSE; MENU] this []).2 = [("g", GAMEPLAY); ("g", PAUSE); ("g", MENU)].
Proof. reflexivity. Qed.

(** * Properties of the physics step *)

Section PhysicsFacts.
Implicit Types (g : game.t) (p : player.t).

(** The screen that [update] returns does not depend on the state manager. *)
Lemma update_screen {W} now this (stateManager : StateManager.t W) (w : W) :
  (GameplayState.update now this stateManager w).1.1
  = GameplayState.mk (GameplayState.canvas this) (GameplayState.game this)
      (GameplayState.physics (GameplayState.game this) (GameplayState.player this))
      (GameplayState.updateSprites now (GameplayState.sprites this)).
Proof.
  unfold GameplayState.update.
  destruct (held _ "Escape"); [destruct (StateManager.setState _ _ _)|]; reflexivity.
Qed.

Lemma tick_player now this :
  GameplayState.player (GameplayState.tick now this)
  = GameplayState.physics (GameplayState.game this) (GameplayState.player this).
Proof. unfold GameplayState.tick. now rewrite update_screen. Qed.

Lemma tick_game now this :
  GameplayState.game (GameplayState.tick now this) = GameplayState.game this.
Proof. unfold GameplayState.tick. now rewrite update_screen. Qed.

Lemma sameTunables_refl p : sameTunables p p.
Proof. now repeat split. Qed.

Lemma sameTunables_trans p1 p2 p3 :
  sameTunables p1 p2 -> sameTunables p2 p3 -> sameTunables p1 p3.
Proof. unfold sameTunables. intuition congruence. Qed.

Lemma horizontalMovement_tunables g p : sameTunables p (GameplayState.horizontalMovement g p).
Proof.
  unfold GameplayState.horizontalMovement.
  destruct (held _ "KeyA"); [|destruct (held _ "KeyD")]; now repeat split.
Qed.

Lemma jumping_tunables g p : sameTunables p (GameplayState.jumping g p).
Proof. unfold GameplayState.jumping. destruct (_ && _); now repeat split. Qed.

Lemma applyGravity_tunables g p : sameTunables p (GameplayState.applyGravity g p).
Proof. unfold GameplayState.applyGravity. destruct (negb _); now repeat split. Qed.

Lemma updatePosition_tunables p : sameTunables p (GameplayState.updatePosition p).
Proof. now repeat split. Qed.

Lemma groundCollision_tunables g p : sameTunables p (GameplayState.groundCollision g p).
Proof. unfold GameplayState.groundCollision. destruct (_ <=? _); now repeat split. Qed.

Lemma keepInBounds_tunables g p : sameTunables p (GameplayState.keepInBounds g p).
Proof.
  unfold GameplayState.keepInBounds.
  destruct (_ <? _); [|destruct (_ <? _)]; now repeat split.
Qed.

Lemma integrated_tunables g p : sameTunables p (GameplayState.integrated g p).
Proof.
  unfold GameplayState.integrated.
  eauto using sameTunables_trans, horizontalMovement_tunables, jumping_tunables,
    applyGravity_tunables, updatePosition_tunables.
Qed.

Lemma physics_tunables g p : sameTunables p (GameplayState.physics g p).
Proof.
  unfold GameplayState.physics.
  eauto using sameTunables_trans, integrated_tunables, groundCollision_tunables,
    keepInBounds_tunables.
Qed.

End PhysicsFacts.

(** * The frame of [update] *)

Section Frame.

Lemma tick_tunables now this : tunables (GameplayState.tick now this) = tunables this.
Proof.
  unfold tunables. rewrite tick_player, tick_game.
  destruct (physics_tunables (GameplayState.game this) (GameplayState.player this))
    as (-> & -> & -> & -> & _).
  reflexivity.
Qed.

Lemma handle_tunables unsignedLong e this :
  isResize e = false -> tunables (handle unsignedLong e this) = tunables this.
Proof.
  destruct e as [now|code|code|cw]; cbn [handle isResize]; intros H;
    [apply tick_tunables|reflexivity|reflexivity|discriminate].
Qed.

(** What [Sprite.update] leaves alone: the frame geometry, the number of
    frames and the speed. *)
Lemma Sprite_update_geometry currentTime sprite :
  let sprite' := Sprite.update currentTime sprite in
  Sprite.frameWidth sprite' = Sprite.frameWidth sprite
  /\ Sprite.frameHeight sprite' = Sprite.frameHeight sprite
  /\ Sprite.totalFrames sprite' = Sprite.totalFrames sprite
  /\ Sprite.animationSpeed sprite' = Sprite.animationSpeed sprite.
Proof.
  unfold Sprite.update. destruct (_ <=? _)%N; [easy|]. now destruct (_ <=? _).
Qed.

Lemma updateSprites_lookup now (m : gmap string Sprite.t) id :
  match GameplayState.updateSprites now (Some m) with
  | Some m' => m' !! id = Sprite.update (now id) <$> m !! id
  | None => False
  end.
Proof. cbn. rewrite map_lookup_imap. now destruct (m !! id). Qed.

(** C10, as stated, fails when Escape is held: [update] then writes the
    current state of the state manager too, which is neither one of the five
    player fields nor a sprite's clock.  Here the player stands still and the
    sprites have one frame each, so that the screen comes back as it was and
    the state, Gameplay before the call and Pause after it, is all that the
    call has changed. *)
Lemma C10_counterexample :
  let this := GameplayState.mk (canvas.mk 800 400 true (Some 800))
                (game800 (keysHeld ["Escape"])) standing (Some initializeSprites) in
  let stateManager := (StateManager.setState GAMEPLAY StateManager.new tt).1 in
  let after := GameplayState.update noClock this stateManager tt in
  StateManager.getCurrentState stateManager = GAMEPLAY
  /\ StateManager.getCurrentState after.1.2 = PAUSE
  /\ after.1.1 = this.
Proof. vm_compute. repeat split. Qed.

(** C10, amended.  Whatever the keys and whatever the screen, one [update]
    returns a screen with the same canvas, the same [game] object (size,
    gravity, ground line, and the key map too) and a player with the same
    width, height, speed, jump power and colour: of the screen's own fields
    only the player's x, y, velocityX, velocityY and onGround, and the
    sprites, can differ; the sprites are the same ones under the same names,
    each after its own [Sprite.update], which writes its animation clock
    only.  Outside the screen, [update] writes to the shared state manager
    when Escape is held, and only then: its current state becomes Pause and
    the observer, if there is one, is told; without Escape the state manager
    and the observer's world are as they were.  The observer slot is never
    written.  The tunables are also left alone by every event of a session
    but a resize. *)
Theorem C10_update_leaves_tunables {W} now this (stateManager : StateManager.t W) (w : W) :
  let after := GameplayState.update now this stateManager w in
  let this' := after.1.1 in
  GameplayState.canvas this' = GameplayState.canvas this
  /\ GameplayState.game this' = GameplayState.game this
  /\ sameTunables (GameplayState.player this) (GameplayState.player this')
  /\ tunables this' = tunables this
  /\ GameplayState.sprites this'
     = fmap (M := option)
         (map_imap (fun id sprite => Some (Sprite.update (now id) sprite)))
         (GameplayState.sprites this)
  /\ (forall id sprite',
        (GameplayState.sprites this' ≫= fun m => m !! id) = Some sprite' ->
        exists sprite,
          (GameplayState.sprites this ≫= fun m => m !! id) = Some sprite
          /\ Sprite.frameWidth sprite' = Sprite.frameWidth sprite
          /\ Sprite.frameHeight sprite' = Sprite.frameHeight sprite
          /\ Sprite.totalFrames sprite' = Sprite.totalFrames sprite
          /\ Sprite.animationSpeed sprite' = Sprite.animationSpeed sprite)
  /\ StateManager.onStateChange after.1.2 = StateManager.onStateChange stateManager
  /\ (if held (game.keys (GameplayState.game this)) "Escape"
      then StateManager.getCurrentState after.1.2 = PAUSE
           /\ after.2 = notify (StateManager.onStateChange stateManager) PAUSE w
      else after.1.2 = stateManager /\ after.2 = w)
  /\ (forall unsignedLong e, isResize e = false ->
        tunables (handle unsignedLong e this) = tunables this).
Proof.
  cbn zeta. rewrite update_screen.
  cbn [GameplayState.canvas GameplayState.game GameplayState.player GameplayState.sprites].
  split; [reflexivity|]. split; [reflexivity|]. split; [apply physics_tunables|].
  split; [|split; [|split; [|split; [|split]]]].
  - rewrite <- (update_screen (W := unit) now this StateManager.new tt).
    apply tick_tunables.
  - unfold GameplayState.updateSprites. destruct (GameplayState.sprites this); reflexivity.
  - intros id sprite'. unfold GameplayState.updateSprites.
    destruct (GameplayState.sprites this) as [m|]; [|discriminate]. cbn.
    rewrite map_lookup_imap. destruct (m !! id) as [sprite|]; [|discriminate]. cbn.
    intros [= <-]. exists sprite. split; [reflexivity|].
    apply Sprite_update_geometry.
  - unfold GameplayState.update. destruct (held _ "Escape"); [|reflexivity].
    pose proof (setState_slot PAUSE stateManager w) as H.
    now destruct (StateManager.setState _ _ _).
  - unfold GameplayState.update. destruct (held _ "Escape"); [|now split].
    pose proof (setState_state PAUSE stateManager w) as H1.
    pose proof (setState_world PAUSE stateManager w) as H2.
    destruct (StateManager.setState _ _ _). cbn in *. now split.
  - intros; now apply handle_tunables.
Qed.

(** A resize does change them: from the 800 pixel layout to the 1000 pixel
    one. *)
Example resize_changes_tunables :
  (fun this => (tunables this, tunables (handle integerPart (Resize 1000) this)))
    <$> screenOfWidth 800
  = Some ([24; 32; 4; 12; 0.5; 360; 800; 400], [30; 40; 5; 15; 0.625; 450; 1000; 500]).
Proof. vm_compute. reflexivity. Qed.

End Frame.

(** * The steps of the physics, one by one *)

Section Steps.
Implicit Types (g : game.t) (p : player.t).

(** Case analysis on the keys and on the tests that the goal still holds,
    innermost first. *)
Ltac keys g :=
  destruct (held (game.keys g) "KeyA") eqn:?, (held (game.keys g) "KeyD") eqn:?,
    (held (game.keys g) "Space") eqn:?.

Ltac tests :=
  repeat (match goal with
          | |- context [if ?b then _ else _] =>
              lazymatch b with
              | context [if _ then _ else _] => fail
              | _ => destruct b eqn:?
              end
          end; cbn).

Ltac steps :=
  unfold GameplayState.physics, GameplayState.keepInBounds, GameplayState.groundCollision,
    GameplayState.integrated, GameplayState.updatePosition, GameplayState.applyGravity,
    GameplayState.jumping, GameplayState.horizontalMovement.

(** The integrated player, field by field. *)
Lemma integrated_velocityX g p :
  player.velocityX (GameplayState.integrated g p)
  = if held (game.keys g) "KeyA" then - player.speed p
    else if held (game.keys g) "KeyD" then player.speed p
    else player.velocityX p * 0.8.
Proof. steps. keys g; destruct p as [? ? ? ? ? ? ? ? [] ?]; reflexivity. Qed.

Lemma integrated_x g p :
  player.x (GameplayState.integrated g p)
  = player.x p + player.velocityX (GameplayState.integrated g p).
Proof. steps. keys g; destruct p as [? ? ? ? ? ? ? ? [] ?]; reflexivity. Qed.

Lemma integrated_onGround g p :
  player.onGround (GameplayState.integrated g p)
  = player.onGround p && negb (held (game.keys g) "Space").
Proof. steps. keys g; destruct p as [? ? ? ? ? ? ? ? [] ?]; reflexivity. Qed.

Lemma integrated_velocityY g p :
  player.velocityY (GameplayState.integrated g p)
  = if player.onGround p
    then if held (game.keys g) "Space" then - player.jumpPower p + game.gravity g
         else player.velocityY p
    else player.velocityY p + game.gravity g.
Proof. steps. keys g; destruct p as [? ? ? ? ? ? ? ? [] ?]; reflexivity. Qed.

Lemma integrated_y g p :
  player.y (GameplayState.integrated g p)
  = player.y p + player.velocityY (GameplayState.integrated g p).
Proof. steps. keys g; destruct p as [? ? ? ? ? ? ? ? [] ?]; reflexivity. Qed.

(** The two clamps, on the integrated player [q]. *)
Lemma physics_vertical g p :
  let q := GameplayState.integrated g p in
  vertical (GameplayState.physics g p)
  = if game.groundY g <=? player.y q + player.height p
    then (game.groundY g - player.height p, 0, true)
    else vertical q.
Proof.
  cbn zeta. destruct (integrated_tunables g p) as (_ & Hh & _).
  unfold GameplayState.physics, GameplayState.keepInBounds, GameplayState.groundCollision.
  rewrite <- Hh. destruct (GameplayState.integrated g p); cbn. tests; reflexivity.
Qed.

Lemma physics_horizontal g p :
  let q := GameplayState.integrated g p in
  (player.x (GameplayState.physics g p), player.velocityX (GameplayState.physics g p))
  = if player.x q <? 0 then (0, 0)
    else if game.width g <? player.x q + player.width p
    then (game.width g - player.width p, 0)
    else (player.x q, player.velocityX q).
Proof.
  cbn zeta. destruct (integrated_tunables g p) as (Hw & _).
  unfold GameplayState.physics, GameplayState.keepInBounds, GameplayState.groundCollision.
  rewrite <- Hw. destruct (GameplayState.integrated g p); cbn. tests; reflexivity.
Qed.

Lemma physics_clamped g p :
  (game.groundY g <=? player.y (GameplayState.integrated g p) + player.height p) = true ->
  player.y (GameplayState.physics g p) = game.groundY g - player.height p
  /\ player.velocityY (GameplayState.physics g p) = 0
  /\ player.onGround (GameplayState.physics g p) = true.
Proof.
  intros E. pose proof (physics_vertical g p) as V. cbn zeta in V. rewrite E in V.
  revert V. generalize (GameplayState.physics g p). intros p' V.
  unfold vertical in V. now injection V.
Qed.

Lemma physics_unclamped g p :
  (game.groundY g <=? player.y (GameplayState.integrated g p) + player.height p) = false ->
  player.y (GameplayState.physics g p) = player.y (GameplayState.integrated g p)
  /\ player.velocityY (GameplayState.physics g p)
     = player.velocityY (GameplayState.integrated g p)
  /\ player.onGround (GameplayState.physics g p)
     = player.onGround (GameplayState.integrated g p).
Proof.
  intros E. pose proof (physics_vertical g p) as V. cbn zeta in V. rewrite E in V.
  revert V. generalize (GameplayState.physics g p) (GameplayState.integrated g p).
  intros p' q V. unfold vertical in V. now injection V.
Qed.

End Steps.

(** * Facts of binary64 arithmetic *)

Section FloatFacts.

Lemma SFeqb_true_cases a b :
  SFeqb a b = true -> a = b \/ exists sa sb, a = S754_zero sa /\ b = S754_zero sb.
Proof.
  unfold SFeqb, SFcompare.
  destruct a as [sa|sa| |sa ma ea], b as [sb|sb| |sb mb eb]; try discriminate;
    try (destruct sa, sb; discriminate || (left; reflexivity)); eauto.
  intros H. left.
  change (PosDef.Pos.compare_cont Eq ma mb) with (Pos.compare ma mb) in H.
  destruct sa, sb; try discriminate;
    destruct (Z.compare_spec ea eb); try discriminate; subst;
    destruct (Pos.compare_spec ma mb); try discriminate; subst; reflexivity.
Qed.

(** [y + 0] is [y] again, but for [-0 + 0], which is [+0]. *)
Lemma add_zero_same y : sameNumber (y + 0) y.
Proof.
  unfold sameNumber.
  assert (H : Prim2SF (y + 0) = SF64add (Prim2SF y) (S754_zero false)) by apply add_spec.
  destruct (Prim2SF y) as [[]| | |] eqn:E; cbn in H.
  - right. rewrite FloatAxioms.eqb_spec, H, E. reflexivity.
  - left. apply Prim2SF_inj. congruence.
  - left. apply Prim2SF_inj. congruence.
  - left. apply Prim2SF_inj. congruence.
  - left. apply Prim2SF_inj. congruence.
Qed.

(** The same number twice: the same value, or two zeros. *)
Lemma sameNumber_cases a b :
  sameNumber a b ->
  a = b \/ exists sa sb, Prim2SF a = S754_zero sa /\ Prim2SF b = S754_zero sb.
Proof.
  intros [->|H]; [now left|].
  rewrite FloatAxioms.eqb_spec in H. apply SFeqb_true_cases in H as [H|H]; [|now right].
  left. now apply Prim2SF_inj.
Qed.

Lemma sameNumber_refl a : sameNumber a a.
Proof. now left. Qed.

Lemma sameNumber_trans a b c : sameNumber a b -> sameNumber b c -> sameNumber a c.
Proof.
  intros Hab Hbc.
  destruct (sameNumber_cases _ _ Hab) as [->|(sa & sb & Ha & Hb)]; [exact Hbc|].
  destruct (sameNumber_cases _ _ Hbc) as [<-|(sb' & sc & _ & Hc)]; [exact Hab|].
  right. rewrite FloatAxioms.eqb_spec, Ha, Hc. reflexivity.
Qed.

Lemma SFcompare_zeros_l s1 s2 f : SFcompare (S754_zero s1) f = SFcompare (S754_zero s2) f.
Proof. now destruct f. Qed.

Lemma SFcompare_zeros_r s1 s2 f : SFcompare f (S754_zero s1) = SFcompare f (S754_zero s2).
Proof. now destruct f. Qed.

Lemma SFadd_zeros s1 s2 h :
  SF64add (S754_zero s1) h = SF64add (S754_zero s2) h
  \/ exists t1 t2, SF64add (S754_zero s1) h = S754_zero t1
                  /\ SF64add (S754_zero s2) h = S754_zero t2.
Proof.
  destruct h as [sh|sh| |sh mh eh]; cbn; try (left; reflexivity).
  right. destruct s1, s2, sh; eauto.
Qed.

(** Sums with the same number compare alike. *)
Lemma sameNumber_add_compare a b h c :
  sameNumber a b ->
  (a + h =? c) = (b + h =? c) /\ (a + h <=? c) = (b + h <=? c)
  /\ (c <=? a + h) = (c <=? b + h).
Proof.
  intros H. apply sameNumber_cases in H as [->|(sa & sb & Ha & Hb)]; [easy|].
  rewrite !FloatAxioms.eqb_spec, !FloatAxioms.leb_spec, !add_spec, Ha, Hb.
  unfold SFeqb, SFleb.
  destruct (SFadd_zeros sa sb (Prim2SF h)) as [->|(t1 & t2 & -> & ->)]; [easy|].
  now rewrite (SFcompare_zeros_l t1 t2), (SFcompare_zeros_r t1 t2).
Qed.

Lemma SFcompare_antisym a b :
  SFcompare b a = match SFcompare a b with Some c => Some (CompOpp c) | None => None end.
Proof.
  destruct a as [sa|sa| |sa ma ea], b as [sb|sb| |sb mb eb]; cbn;
    try reflexivity; try (destruct sa; reflexivity); try (destruct sb; reflexivity);
    try (destruct sa, sb; reflexivity).
  change (PosDef.Pos.compare_cont Eq mb ma) with (Pos.compare mb ma).
  change (PosDef.Pos.compare_cont Eq ma mb) with (Pos.compare ma mb).
  rewrite (Z.compare_antisym ea eb), (Pos.compare_antisym ma mb).
  destruct sa, sb; try reflexivity; destruct (ea ?= eb)%Z; cbn; try reflexivity;
    destruct (ma ?= mb)%positive; reflexivity.
Qed.

Lemma is_nan_spec a : is_nan a = true <-> Prim2SF a = S754_nan.
Proof.
  unfold is_nan. rewrite FloatAxioms.eqb_spec. unfold SFeqb.
  destruct (Prim2SF a) as [[]|[]| |[] m e]; cbn; try easy;
    rewrite Z.compare_refl;
    change (PosDef.Pos.compare_cont Eq m m) with (Pos.compare m m);
    rewrite Pos.compare_refl; easy.
Qed.

(** Two numbers compare, unless one of them is NaN. *)
Lemma leb_total a b :
  (a <=? b) = false -> (b <? a) = true \/ is_nan a = true \/ is_nan b = true.
Proof.
  rewrite !is_nan_spec, FloatAxioms.leb_spec, FloatAxioms.ltb_spec. unfold SFleb, SFltb.
  rewrite (SFcompare_antisym (Prim2SF a) (Prim2SF b)).
  destruct (SFcompare (Prim2SF a) (Prim2SF b)) as [[]|] eqn:E; try discriminate; [now left|].
  intros _. right.
  destruct (Prim2SF a) as [sa|sa| |sa ma ea], (Prim2SF b) as [sb|sb| |sb mb eb];
    try discriminate; auto.
Qed.

Lemma ltb_leb a b : (a <? b) = true -> (a <=? b) = true.
Proof.
  rewrite FloatAxioms.ltb_spec, FloatAxioms.leb_spec. unfold SFltb, SFleb.
  now destruct (SFcompare _ _) as [[]|].
Qed.

Lemma eqb_leb a b : (a =? b) = true -> (a <=? b) = true.
Proof.
  rewrite FloatAxioms.eqb_spec, FloatAxioms.leb_spec. unfold SFeqb, SFleb.
  now destruct (SFcompare _ _) as [[]|].
Qed.

End FloatFacts.

(** * The order of binary64 numbers and the rounding of sums *)

Section Rounding.
Local Open Scope Z_scope.

Lemma fexp_eq e : SpecFloat.fexp prec emax e = Z.max (e - 53) (-1074).
Proof. reflexivity. Qed.

Lemma digits2_pos_bounds m :
  2 ^ (Zpos (digits2_pos m) - 1) <= Zpos m < 2 ^ Zpos (digits2_pos m).
Proof.
  induction m as [m IH|m IH|]; cbn [digits2_pos]; [| |cbn; lia];
    rewrite Pos2Z.inj_succ;
    replace (Z.succ (Zpos (digits2_pos m)) - 1) with (Z.succ (Zpos (digits2_pos m) - 1)) by lia;
    rewrite !Z.pow_succ_r by lia; lia.
Qed.

Lemma Zdigits2_bounds N : 0 < N -> 2 ^ (Zdigits2 N - 1) <= N < 2 ^ Zdigits2 N /\ 0 < Zdigits2 N.
Proof.
  destruct N as [|p|p]; try lia. intros _. cbn [Zdigits2].
  split; [apply digits2_pos_bounds|lia].
Qed.

Lemma shr_1_spec mrs :
  0 <= shr_m mrs ->
  shr_m (shr_1 mrs) = shr_m mrs / 2
  /\ shr_r (shr_1 mrs) = Z.odd (shr_m mrs)
  /\ shr_s (shr_1 mrs) = shr_r mrs || shr_s mrs.
Proof.
  destruct mrs as [m r s]. cbn [shr_m shr_r shr_s]. intros Hm.
  rewrite <- Z.div2_div.
  destruct m as [|[p|p|]|p]; try lia; cbn; auto.
Qed.

Lemma shifted_0 N : shifted N 0 (Build_shr_record N false false).
Proof. split; cbn; [now rewrite Z.div_1_r|]. now rewrite Z.mod_1_r. Qed.

Lemma shifted_step N k mrs :
  0 <= N -> 0 <= k -> shifted N k mrs -> shifted N (k + 1) (shr_1 mrs).
Proof.
  intros HN Hk [Hm Hx].
  assert (Hp : 0 < 2 ^ k) by (apply Z.pow_pos_nonneg; lia).
  assert (H0 : 0 <= shr_m mrs) by (rewrite Hm; apply Z.div_pos; lia).
  destruct (shr_1_spec mrs H0) as (H1 & H2 & H3).
  unfold shifted. rewrite Z.pow_add_r, Z.pow_1_r by lia.
  split.
  - rewrite H1, Hm, Z.div_div by lia. reflexivity.
  - rewrite H2, H3.
    pose proof (Z.div_mod N (2 ^ k) ltac:(lia)) as HD.
    pose proof (Z.mod_pos_bound N (2 ^ k) Hp) as HB.
    rewrite <- Hm in HD.
    rewrite Z.mod_divide by lia.
    split.
    + intros H. apply orb_false_iff in H as [Ho Hf].
      apply Hx in Hf. rewrite <- Z.negb_even in Ho. apply negb_false_iff in Ho.
      apply Z.even_spec in Ho as [c Hc]. exists c. lia.
    + intros [c Hc].
      assert (Hr : N mod 2 ^ k = 0).
      { apply Z.mod_divide; [lia|]. exists (c * 2). lia. }
      assert (He : shr_m mrs = 2 * c) by nia.
      apply orb_false_iff. split; [|now apply Hx].
      rewrite He, Z.odd_mul. reflexivity.
Qed.

Lemma shifted_iter p : forall N k mrs,
  0 <= N -> 0 <= k -> shifted N k mrs -> shifted N (k + Zpos p) (SpecFloat.iter_pos shr_1 p mrs).
Proof.
  induction p as [p IH|p IH|]; intros N k mrs HN Hk H; cbn [SpecFloat.iter_pos].
  - replace (k + Zpos p~1) with (k + 1 + Zpos p + Zpos p) by lia.
    apply IH; [lia..|]. apply IH; [lia..|]. now apply shifted_step.
  - replace (k + Zpos p~0) with (k + Zpos p + Zpos p) by lia.
    apply IH; [lia..|]. now apply IH.
  - now apply shifted_step.
Qed.

Lemma shr_spec N e n :
  0 <= N ->
  let r := shr (Build_shr_record N false false) e n in
  r.2 = e + Z.max n 0 /\ shifted N (Z.max n 0) r.1.
Proof.
  intros HN. destruct n as [|p|p]; cbn [shr fst snd].
  - split; [lia|apply shifted_0].
  - split; [lia|]. replace (Z.max (Zpos p) 0) with (0 + Zpos p) by lia.
    apply shifted_iter; [lia..|apply shifted_0].
  - split; [lia|apply shifted_0].
Qed.

Lemma round_nearest_even_spec mrs :
  let m := round_nearest_even (shr_m mrs) (loc_of_shr_record mrs) in
  m = shr_m mrs \/ (m = shr_m mrs + 1 /\ shr_r mrs || shr_s mrs = true).
Proof.
  destruct mrs as [m [] []]; cbn; auto. destruct (Z.even m); auto.
Qed.


Lemma pow2_pos k : 0 <= k -> 0 < 2 ^ k.
Proof. intros. apply Z.pow_pos_nonneg; lia. Qed.

Lemma pow2_step k1 k2 : 0 <= k1 < k2 -> 2 * 2 ^ k1 <= 2 ^ k2.
Proof.
  intros H. rewrite <- Z.pow_succ_r by lia. apply Z.pow_le_mono_r; lia.
Qed.

Lemma pow2_split k1 k2 : 0 <= k1 <= k2 -> 2 ^ k2 = 2 ^ (k2 - k1) * 2 ^ k1.
Proof. intros H. rewrite <- Z.pow_add_r by lia. f_equal. lia. Qed.

(** A number with at most 53 bits at a lower exponent is below one with 53
    bits at a higher exponent. *)
Lemma finite_lt m1 m2 k1 k2 :
  0 <= k1 < k2 -> m1 < 2 ^ 53 -> 2 ^ 52 <= m2 -> m1 * 2 ^ k1 < m2 * 2 ^ k2.
Proof.
  intros Hk H1 H2. pose proof (pow2_step k1 k2 Hk). pose proof (pow2_pos k1 ltac:(lia)).
  change (2 ^ 53) with (2 * 2 ^ 52) in H1.
  assert (Hc : 0 < 2 ^ 52) by lia. revert H1 H2 Hc. generalize (2 ^ 52). intros c H1 H2 Hc.
  assert (m2 * (2 * 2 ^ k1) <= m2 * 2 ^ k2) by nia.
  assert (m1 * 2 ^ k1 < 2 * c * 2 ^ k1) by nia.
  nia.
Qed.

Lemma valid_finite s m e :
  valid_binary (S754_finite s m e) = true ->
  -1074 <= e <= 971 /\ 0 < Zpos m < 2 ^ 53 /\ (-1074 < e -> 2 ^ 52 <= Zpos m).
Proof.
  cbn [SpecFloat.valid_binary]. unfold bounded, canonical_mantissa. rewrite fexp_eq.
  intros H. apply andb_prop in H as [H1 H2]. apply Z.eqb_eq in H1. apply Z.leb_le in H2.
  change (emax - prec) with 971 in H2.
  pose proof (digits2_pos_bounds m) as [Hl Hu].
  set (d := Zpos (digits2_pos m)) in *.
  assert (Hd : d <= 53) by lia.
  split; [lia|]. split; [split; [lia|]|].
  - apply Z.lt_le_trans with (2 ^ d); [exact Hu|]. apply Z.pow_le_mono_r; lia.
  - intros He. assert (Hd' : d = 53) by lia. rewrite Hd' in Hl. exact Hl.
Qed.

Lemma SFvalue_finite s m e :
  valid_binary (S754_finite s m e) = true ->
  0 < Zpos m * 2 ^ (e + 1074) < 2 ^ 2098.
Proof.
  intros H. apply valid_finite in H as (He & Hm & _).
  pose proof (pow2_pos (e + 1074) ltac:(lia)) as Hp.
  split; [nia|].
  apply Z.lt_le_trans with (2 ^ 53 * 2 ^ (e + 1074)); [nia|].
  rewrite <- Z.pow_add_r by lia. apply Z.pow_le_mono_r; lia.
Qed.

Lemma SFvalue_bounds f : valid_binary f = true -> - 2 ^ 2098 <= SFvalue f <= 2 ^ 2098.
Proof.
  pose proof (pow2_pos 2098 ltac:(lia)) as Hp.
  destruct f as [s|[]| |[] m e]; cbn [SFvalue]; intros H; try lia;
    apply SFvalue_finite in H; lia.
Qed.

(** On numbers, [SFcompare] compares the values. *)
Lemma SFcompare_value a b :
  valid_binary a = true -> valid_binary b = true -> a <> S754_nan -> b <> S754_nan ->
  SFcompare a b = Some (SFvalue a ?= SFvalue b).
Proof.
  intros Ha Hb Na Nb.
  pose proof (pow2_pos 2098 ltac:(lia)) as Hp.
  destruct a as [sa|sa| |sa ma ea]; [| |congruence|];
    (destruct b as [sb|sb| |sb mb eb]; [| |congruence|]);
    cbn [SFcompare SFvalue]; f_equal; symmetry;
    try (pose proof (SFvalue_finite _ _ _ Ha) as Va);
    try (pose proof (SFvalue_finite _ _ _ Hb) as Vb).
  all: try (destruct sa); try (destruct sb); cbn [negb];
    try (match goal with
         | |- (_ ?= _) = Eq => apply Z.compare_eq_iff
         | |- (_ ?= _) = Lt => apply Z.compare_lt_iff
         | |- (_ ?= _) = Gt => apply Z.compare_gt_iff
         end; lia).
  all: change (PosDef.Pos.compare_cont Eq ma mb) with (Pos.compare ma mb);
    apply valid_finite in Ha as (Hea & Hma & Hna), Hb as (Heb & Hmb & Hnb);
    assert (Hlt : forall m1 m2 e1 e2, e1 < e2 -> -1074 <= e1 -> Zpos m1 < 2 ^ 53 ->
              2 ^ 52 <= Zpos m2 -> Zpos m1 * 2 ^ (e1 + 1074) < Zpos m2 * 2 ^ (e2 + 1074))
      by (intros; apply finite_lt; lia).
  - destruct (Z.compare_spec ea eb) as [->|H|H].
    + pose proof (pow2_pos (eb + 1074) ltac:(lia)).
      destruct (Pos.compare_spec ma mb) as [->|Hm|Hm]; cbn [CompOpp];
        [apply Z.compare_eq_iff|apply Z.compare_gt_iff|apply Z.compare_lt_iff]; nia.
    + apply Z.compare_gt_iff. specialize (Hlt ma mb ea eb). lia.
    + apply Z.compare_lt_iff. specialize (Hlt mb ma eb ea). lia.
  - destruct (Z.compare_spec ea eb) as [->|H|H].
    + pose proof (pow2_pos (eb + 1074) ltac:(lia)).
      destruct (Pos.compare_spec ma mb) as [->|Hm|Hm];
        [apply Z.compare_eq_iff|apply Z.compare_lt_iff|apply Z.compare_gt_iff]; nia.
    + apply Z.compare_lt_iff. specialize (Hlt ma mb ea eb). lia.
    + apply Z.compare_gt_iff. specialize (Hlt mb ma eb ea). lia.
Qed.


Lemma SFopp_value f : SFvalue (SFopp f) = - SFvalue f.
Proof. destruct f as [s|[]| |[] m e]; cbn; lia. Qed.

Lemma SFopp_valid f : valid_binary (SFopp f) = valid_binary f.
Proof. now destruct f. Qed.

(** No number lies strictly between two neighbours of the grid at the
    exponent at which a 53-bit mantissa sits. *)
Lemma no_number_between V m E :
  valid_binary V = true -> 0 <= E -> 0 <= m -> (0 < E -> 2 ^ 52 <= m) ->
  ~ (m * 2 ^ E < SFvalue V < (m + 1) * 2 ^ E).
Proof.
  intros HV HE Hm Hn [H1 H2].
  pose proof (pow2_pos E HE) as HP.
  assert (Hgrid : forall k c, E <= k -> ~ (m * 2 ^ E < c * 2 ^ k < (m + 1) * 2 ^ E)).
  { intros k c Hk. rewrite (pow2_split E k) by lia.
    generalize (2 ^ (k - E)). intros D [A B].
    assert (m < c * D) by nia. assert (c * D < m + 1) by nia. lia. }
  assert (H0 : 0 <= m * 2 ^ E) by nia.
  destruct V as [s|[]| |[] mv ev]; cbn [SFvalue] in H1, H2; try lia.
  - destruct (Z_le_gt_dec E 2098) as [Hl|Hg].
    + apply (Hgrid 2098 1 Hl). lia.
    + specialize (Hn ltac:(lia)).
      assert (2 ^ 2098 <= 2 ^ E) by (apply Z.pow_le_mono_r; lia).
      assert (1 <= m) by lia. assert (2 ^ E <= m * 2 ^ E) by nia. lia.
  - apply valid_finite in HV as (He & Hmv & _).
    destruct (Z_le_gt_dec E (ev + 1074)) as [Hl|Hg].
    + apply (Hgrid (ev + 1074) (Zpos mv) Hl). lia.
    + specialize (Hn ltac:(lia)).
      pose proof (finite_lt (Zpos mv) m (ev + 1074) E ltac:(lia) ltac:(lia) Hn). lia.
Qed.


(** Rounding a number that is not above a binary64 number [V] gives a number
    that is not above [V] either.  [N * 2^ez] is the magnitude to round, [sx]
    its sign. *)
Lemma binary_round_aux_le (sx : bool) N ez V :
  -1074 <= ez ->
  0 <= SpecFloat.fexp prec emax (Zdigits2 (Zpos N) + ez) - ez ->
  valid_binary V = true ->
  (if sx then - (Zpos N * 2 ^ (ez + 1074)) else Zpos N * 2 ^ (ez + 1074)) <= SFvalue V ->
  SFvalue (binary_round_aux prec emax sx (Zpos N) ez loc_Exact) <= SFvalue V.
Proof.
  intros Hez Hn HV Hy.
  unfold binary_round_aux, shr_fexp. cbn [shr_record_of_loc].
  pose proof (Zdigits2_bounds (Zpos N) ltac:(lia)) as [[Hdl Hdu] Hd].
  revert Hn. rewrite fexp_eq. set (d := Zdigits2 (Zpos N)) in *.
  set (n := Z.max (d + ez - 53) (-1074) - ez). intros Hn.
  pose proof (shr_spec (Zpos N) ez n ltac:(lia)) as H. cbn zeta in H.
  destruct (shr (Build_shr_record (Zpos N) false false) ez n) as [mrs' e'].
  cbn [fst snd] in H. destruct H as [He' [Hm1 Hx1]].
  rewrite Z.max_l in He', Hm1, Hx1 by lia.
  pose proof (round_nearest_even_spec mrs') as Hr. cbn zeta in Hr.
  set (m1 := shr_m mrs') in *.
  set (m' := round_nearest_even m1 (loc_of_shr_record mrs')) in *.
  pose proof (pow2_pos n Hn) as HQ.
  pose proof (pow2_pos (ez + 1074) ltac:(lia)) as HP.
  pose proof (Z.div_mod (Zpos N) (2 ^ n) ltac:(lia)) as HD. rewrite <- Hm1 in HD.
  pose proof (Z.mod_pos_bound (Zpos N) (2 ^ n) HQ) as HB.
  set (E := e' + 1074).
  assert (HE : 2 ^ E = 2 ^ n * 2 ^ (ez + 1074)).
  { unfold E. rewrite <- Z.pow_add_r by lia. f_equal. lia. }
  assert (HE0 : 0 <= E) by (unfold E; lia).
  assert (Hm0 : 0 <= m1) by nia.
  assert (Hlt : m1 < 2 ^ 53).
  { rewrite Hm1. apply Z.div_lt_upper_bound; [lia|].
    rewrite <- Z.pow_add_r by lia.
    apply Z.lt_le_trans with (2 ^ d); [exact Hdu|]. apply Z.pow_le_mono_r; lia. }
  assert (Hge : 0 < E -> 2 ^ 52 <= m1).
  { intros HE'. rewrite Hm1. apply Z.div_le_lower_bound; [lia|].
    assert (Hnd : n = d - 53) by (unfold E in HE'; lia).
    rewrite <- Z.pow_add_r by lia. replace (n + 52) with (d - 1) by lia. exact Hdl. }
  (* what the first rounding leaves *)
  assert (Hlow : m1 * 2 ^ E <= Zpos N * 2 ^ (ez + 1074) < (m1 + 1) * 2 ^ E).
  { rewrite HE. nia. }
  assert (Hup : m' = m1 + 1 -> m1 * 2 ^ E < Zpos N * 2 ^ (ez + 1074)).
  { intros Hm'. destruct Hr as [Hr|[_ Hr]]; [lia|].
    assert (Zpos N mod 2 ^ n <> 0).
    { intros H0. apply Hx1 in H0. congruence. }
    rewrite HE. nia. }
  assert (Hm' : m' = m1 \/ m' = m1 + 1) by (destruct Hr as [Hr|[Hr _]]; auto).
  (* the second shift loses nothing *)
  pose proof (shr_spec m' e' (Z.max (Zdigits2 m' + e' - 53) (-1074) - e') ltac:(lia)) as H.
  cbn zeta in H.
  destruct (shr (Build_shr_record m' false false) e' _) as [mrs'' e''].
  cbn [fst snd] in H. destruct H as [He'' [Hm'' _]].
  assert (Hsh : (e'' = e' /\ shr_m mrs'' = m' /\ m' < 2 ^ 53)
                \/ (e'' = e' + 1 /\ shr_m mrs'' = 2 ^ 52 /\ m' = 2 ^ 53)).
  { destruct (Z.eq_dec m' (2 ^ 53)) as [Heq|Hne].
    - right. rewrite Heq in He'', Hm'' |- *.
      change (Zdigits2 (2 ^ 53)) with 54 in He'', Hm''.
      replace (Z.max (Z.max (54 + e' - 53) (-1074) - e') 0) with 1 in He'', Hm'' by lia.
      rewrite Hm''. split; [lia|]. split; reflexivity.
    - left. assert (Hm53 : m' < 2 ^ 53) by lia.
      assert (Hd' : Zdigits2 m' <= 53).
      { destruct (Z.eq_dec m' 0) as [->|Hnz]; [cbn; lia|].
        pose proof (Zdigits2_bounds m' ltac:(lia)) as [[Hl _] _].
        apply Z.nlt_ge. intros Hc.
        assert (2 ^ 53 <= 2 ^ (Zdigits2 m' - 1)) by (apply Z.pow_le_mono_r; lia).
        lia. }
      replace (Z.max (Z.max (Zdigits2 m' + e' - 53) (-1074) - e') 0) with 0 in He'', Hm''
        by lia.
      rewrite Z.pow_0_r, Z.div_1_r in Hm''. split; [lia|]. split; [exact Hm''|exact Hm53]. }
  (* the value of the result *)
  assert (Hval : forall p, shr_m mrs'' = Zpos p -> Zpos p * 2 ^ (e'' + 1074) = m' * 2 ^ E).
  { intros p Hp. destruct Hsh as [(-> & Hs & _)|(-> & Hs & ->)].
    - rewrite <- Hp, Hs. reflexivity.
    - rewrite <- Hp, Hs. unfold E. replace (e' + 1 + 1074) with (Z.succ (e' + 1074)) by lia.
      rewrite Z.pow_succ_r by lia. change (2 ^ 53) with (2 ^ 52 * 2). lia. }
  assert (Hinf : forall p, shr_m mrs'' = Zpos p -> 971 < e'' -> 2 ^ 2098 <= m' * 2 ^ E).
  { intros p Hp He. rewrite <- (Hval p Hp).
    assert (H52 : 2 ^ 52 <= Zpos p).
    { rewrite <- Hp. destruct Hsh as [(-> & -> & _)|(_ & -> & _)]; [|lia].
      specialize (Hge ltac:(unfold E; lia)). lia. }
    assert (H2046 : 2 ^ 2046 <= 2 ^ (e'' + 1074)) by (apply Z.pow_le_mono_r; lia).
    change (2 ^ 2098) with (2 ^ 52 * 2 ^ 2046).
    assert (0 < 2 ^ 2046) by lia. assert (0 < 2 ^ 52) by lia.
    revert H52 H2046 H H0. generalize (2 ^ 52) (2 ^ 2046) (2 ^ (e'' + 1074)). intros. nia. }
  pose proof (SFvalue_bounds V HV) as HVb.
  destruct sx.
  - (* a negative number *)
    assert (Hres : - (m' * 2 ^ E) <= SFvalue V).
    { destruct Hm' as [Hm'|Hm'].
      - destruct (Z.eq_dec (Zpos N mod 2 ^ n) 0) as [H0|H0].
        + rewrite Hm', HE. nia.
        + pose proof (no_number_between (SFopp V) m1 E) as Hg.
          rewrite SFopp_valid, SFopp_value in Hg. specialize (Hg HV HE0 Hm0 Hge).
          assert (m1 * 2 ^ E < Zpos N * 2 ^ (ez + 1074)) by (rewrite HE; nia).
          rewrite Hm'. lia.
      - rewrite Hm'. lia. }
    destruct (shr_m mrs'') as [|p|p] eqn:Hp.
    + cbn [SFvalue].
      destruct Hsh as [(_ & Hs & _)|(_ & Hs & _)]; [|lia]. rewrite <- Hs in Hres. lia.
    + destruct (e'' <=? emax - prec) eqn:Hle; cbn [SFvalue].
      * rewrite (Hval p eq_refl). exact Hres.
      * lia.
    + pose proof (pow2_pos 52 ltac:(lia)).
      destruct Hsh as [(_ & Hs & _)|(_ & Hs & _)]; lia.
  - (* a positive number *)
    assert (Hres : m' * 2 ^ E <= SFvalue V).
    { destruct Hm' as [Hm'|Hm'].
      - rewrite Hm'. lia.
      - pose proof (no_number_between V m1 E HV HE0 Hm0 Hge) as Hg.
        specialize (Hup Hm'). rewrite Hm'. lia. }
    destruct (shr_m mrs'') as [|p|p] eqn:Hp.
    + cbn [SFvalue]. lia.
    + destruct (e'' <=? emax - prec) eqn:Hle; cbn [SFvalue].
      * rewrite (Hval p eq_refl). exact Hres.
      * apply Z.leb_gt in Hle. change (emax - prec) with 971 in Hle.
        specialize (Hinf p eq_refl Hle). lia.
    + pose proof (pow2_pos 52 ltac:(lia)).
      destruct Hsh as [(_ & Hs & _)|(_ & Hs & _)]; lia.
Qed.


Lemma iter_xO_spec m d :
  Zpos (Pos.iter xO m d) = Zpos m * 2 ^ Zpos d
  /\ Zpos (digits2_pos (Pos.iter xO m d)) = Zpos (digits2_pos m) + Zpos d.
Proof.
  induction d as [|d IH] using Pos.peano_ind.
  - cbn [Pos.iter digits2_pos]. rewrite Pos2Z.inj_succ. lia.
  - rewrite Pos.iter_succ. cbn [digits2_pos]. rewrite !Pos2Z.inj_succ, Z.pow_succ_r by lia.
    destruct IH as [IH1 IH2]. rewrite Pos2Z.inj_xO, IH1, IH2. lia.
Qed.

(** Aligning a mantissa to a lower exponent keeps the value. *)
Lemma shl_align_spec mx ex ex' :
  -1074 <= ex -> -1074 <= ex' ->
  let r := shl_align mx ex ex' in
  Zpos r.1 * 2 ^ (r.2 + 1074) = Zpos mx * 2 ^ (ex + 1074)
  /\ Zdigits2 (Zpos r.1) + r.2 = Zdigits2 (Zpos mx) + ex
  /\ r.2 = Z.min ex ex'.
Proof.
  intros H1 H2. unfold shl_align.
  destruct (ex' - ex) as [|d|d] eqn:Hd; cbn [fst snd Zdigits2].
  - split; [reflexivity|]. split; [reflexivity|lia].
  - split; [reflexivity|]. split; [reflexivity|lia].
  - destruct (iter_xO_spec mx d) as [-> ->].
    replace (ex + 1074) with (Zpos d + (ex' + 1074)) by lia.
    rewrite (Z.pow_add_r 2 (Zpos d) (ex' + 1074)) by lia. split; [ring|]. split; lia.
Qed.

Lemma binary_round_le (sx : bool) mx ex V :
  -1074 <= ex -> valid_binary V = true ->
  (if sx then - (Zpos mx * 2 ^ (ex + 1074)) else Zpos mx * 2 ^ (ex + 1074)) <= SFvalue V ->
  SFvalue (binary_round prec emax sx mx ex) <= SFvalue V.
Proof.
  intros Hex HV Hy. unfold binary_round.
  assert (Hfe : -1074 <= SpecFloat.fexp prec emax (Zpos (digits2_pos mx) + ex))
    by (rewrite fexp_eq; lia).
  pose proof (shl_align_spec mx ex _ Hex Hfe) as H. cbn zeta in H.
  destruct (shl_align mx ex _) as [mz ez]. cbn [fst snd] in H. destruct H as (Hv & Hd & He).
  apply binary_round_aux_le; [lia| |exact HV|now rewrite Hv].
  rewrite Hd. cbn [Zdigits2]. lia.
Qed.

Lemma binary_normalize_le z ez sz V :
  -1074 <= ez -> valid_binary V = true ->
  z * 2 ^ (ez + 1074) <= SFvalue V ->
  SFvalue (binary_normalize prec emax z ez sz) <= SFvalue V.
Proof.
  intros Hez HV Hy. destruct z as [|p|p]; cbn [binary_normalize].
  - cbn [SFvalue]. lia.
  - now apply binary_round_le.
  - apply binary_round_le; [exact Hez|exact HV|]. lia.
Qed.

(** The sum of two finite numbers is not above a number that the exact sum
    is not above. *)
Lemma SFadd_finite_le sx mx ex sy my ey V :
  valid_binary (S754_finite sx mx ex) = true ->
  valid_binary (S754_finite sy my ey) = true ->
  valid_binary V = true ->
  SFvalue (S754_finite sx mx ex) + SFvalue (S754_finite sy my ey) <= SFvalue V ->
  SFvalue (SF64add (S754_finite sx mx ex) (S754_finite sy my ey)) <= SFvalue V.
Proof.
  intros HX HY HV Hy. cbn [SF64add SFadd].
  apply valid_finite in HX as (Hex & _), HY as (Hey & _).
  apply binary_normalize_le; [lia|exact HV|].
  pose proof (shl_align_spec mx ex (Z.min ex ey) ltac:(lia) ltac:(lia)) as Hx.
  pose proof (shl_align_spec my ey (Z.min ex ey) ltac:(lia) ltac:(lia)) as Hy'.
  cbn zeta in Hx, Hy'. destruct Hx as (Hx & _ & Hxe), Hy' as (Hy' & _ & Hye).
  replace (Z.min ex (Z.min ex ey)) with (Z.min ex ey) in Hxe by lia.
  replace (Z.min ey (Z.min ex ey)) with (Z.min ex ey) in Hye by lia.
  rewrite Hxe in Hx. rewrite Hye in Hy'.
  cbn [SFvalue] in Hy. rewrite Z.mul_add_distr_r.
  destruct sx, sy; cbn [cond_Zopp]; lia.
Qed.

Lemma SFleb_value a b :
  valid_binary a = true -> valid_binary b = true -> SFleb a b = true ->
  a <> S754_nan /\ b <> S754_nan /\ SFvalue a <= SFvalue b.
Proof.
  intros Ha Hb H.
  assert (Na : a <> S754_nan) by (intros ->; discriminate).
  assert (Nb : b <> S754_nan) by (intros ->; now destruct a).
  split; [exact Na|]. split; [exact Nb|].
  unfold SFleb in H. rewrite (SFcompare_value a b Ha Hb Na Nb) in H.
  destruct (Z.compare_spec (SFvalue a) (SFvalue b)); try discriminate; lia.
Qed.

Lemma SFltb_value a b :
  valid_binary a = true -> valid_binary b = true ->
  (b <> S754_nan -> SFvalue b <= SFvalue a) -> SFltb a b = false.
Proof.
  intros Ha Hb H. unfold SFltb.
  destruct (SFcompare a b) as [c|] eqn:Hc; [|reflexivity].
  assert (Na : a <> S754_nan) by (intros ->; discriminate).
  assert (Nb : b <> S754_nan) by (intros ->; now destruct a).
  rewrite (SFcompare_value a b Ha Hb Na Nb) in Hc. injection Hc as <-.
  specialize (H Nb).
  destruct (Z.compare_spec (SFvalue a) (SFvalue b)); try reflexivity; lia.
Qed.

(** Adding a negative number to [w] gives nothing above what [w] is not
    above. *)
Lemma SFadd_negative X Wd Bg :
  valid_binary X = true -> valid_binary Wd = true -> valid_binary Bg = true ->
  valid_binary (SF64add X Wd) = true ->
  SFltb X (S754_zero false) = true -> SFleb Wd Bg = true ->
  SFltb Bg (SF64add X Wd) = false.
Proof.
  intros HX HW HB HR Hneg Hle.
  destruct (SFleb_value Wd Bg HW HB Hle) as (NW & NB & Hv).
  pose proof (SFvalue_bounds Bg HB) as HBb.
  apply SFltb_value; [exact HB|exact HR|]. intros NR.
  destruct X as [sx|[]| |[] mx ex]; try discriminate.
  - destruct Wd as [sw|[]| |sw mw ew]; cbn in NR |- *; try congruence; lia.
  - destruct Wd as [sw|sw| |sw mw ew]; [| |congruence|].
    + cbn [SF64add SFadd]. pose proof (SFvalue_finite _ _ _ HX). cbn in Hv |- *. lia.
    + cbn [SF64add SFadd]. exact Hv.
    + apply SFadd_finite_le; [exact HX|exact HW|exact HB|].
      pose proof (SFvalue_finite _ _ _ HX). cbn [SFvalue] in *. lia.
Qed.

End Rounding.

Lemma add_negative_leb x w W :
  (x <? 0) = true -> (w <=? W) = true -> (W <? x + w) = false.
Proof.
  rewrite !FloatAxioms.ltb_spec, FloatAxioms.leb_spec, add_spec.
  apply SFadd_negative; try apply Prim2SF_valid.
  rewrite <- add_spec. apply Prim2SF_valid.
Qed.

(** * Friction, jump, ground and walls *)

Section TickFacts.
Implicit Types (g : game.t) (p : player.t).

(** The screen built in an 800 pixel wide container comes to rest, after one
    tick, as [standing] on the ground of [game800]. *)
Example standing_is_reached now :
  (fun this => (GameplayState.player this, GameplayState.game this))
    <$> (GameplayState.tick now <$> screenOfWidth 800)
  = Some (standing, game800 ∅).
Proof. vm_compute. reflexivity. Qed.

(** The screen built in an 804 pixel wide container (scale 1.005), and the one
    of a 996 pixel wide container (scale 1.245). *)
Example screens_804_996 :
  map (fmap (M := option)
         (fun this => (game.groundY (GameplayState.game this),
                       player.height (GameplayState.player this),
                       player.y (GameplayState.player this),
                       game.gravity (GameplayState.game this))))
      [screenOfWidth 804; screenOfWidth 996]
  = [Some (361.8, 32.16, 329.64, 0.5025); Some (448.2, 39.84, 408.36, 0.6225)]
  /\ (361.8 - 32.16) + 32.16 = 361.79999999999995
  /\ (448.2 - 39.84) + 39.84 = 448.20000000000005.
Proof. vm_compute. repeat split. Qed.

(** A jump of the player of the 800 x 400 layout with Space held all along:
    up at -11.5 after the first tick, -11 after the second (no second
    impulse), back on the ground after the 47th. *)
Example jump_arc now :
  let this := GameplayState.mk (canvas.mk 800 400 true (Some 800))
                (game800 (keysHeld ["Space"])) standing None in
  map (fun n => vertical (GameplayState.player (ticks n now this))) [1; 2; 46; 47]%nat
  = [(316.5, -11.5, false); (305.5, -11, false); (316.5, 11, false); (328, 0, true)].
Proof. vm_compute. reflexivity. Qed.

(** C5, as stated, fails two pixels from the left wall: with no key held and
    velocityX = -4, friction gives -3.2, the player crosses x = 0 and the wall
    clamp stores velocityX = 0, which is not 0.8 * (-4). *)
Lemma C5_counterexample :
  let g := game800 ∅ in
  let p := standingAt 2 (-4) in
  held (game.keys g) "KeyA" = false /\ held (game.keys g) "KeyD" = false
  /\ player.velocityX (GameplayState.physics g p) = 0
  /\ player.velocityX p * 0.8 = -3.2
  /\ (player.velocityX (GameplayState.physics g p) =? player.velocityX p * 0.8) = false.
Proof. vm_compute. repeat split. Qed.

(** C5, amended.  With neither KeyA nor KeyD held, the friction step leaves
    velocityX = velocityX * 0.8 (the binary64 product, whatever the other
    fields are), and this is the velocityX of the tick unless the player, once
    moved, is beyond the left or the right wall: then the wall clamp stores 0.
    A velocityX of 0 stays 0 in every case. *)
Theorem C5_friction g p :
  held (game.keys g) "KeyA" = false ->
  held (game.keys g) "KeyD" = false ->
  let q := GameplayState.integrated g p in
  player.velocityX q = player.velocityX p * 0.8
  /\ player.x q = player.x p + player.velocityX p * 0.8
  /\ player.velocityX (GameplayState.physics g p)
     = (if (player.x q <? 0) || (game.width g <? player.x q + player.width p)
        then 0 else player.velocityX p * 0.8)
  /\ (player.velocityX p = 0 -> player.velocityX (GameplayState.physics g p) = 0).
Proof.
  intros HA HD q.
  assert (Hv : player.velocityX q = player.velocityX p * 0.8).
  { subst q. now rewrite integrated_velocityX, HA, HD. }
  assert (Hp : player.velocityX (GameplayState.physics g p)
     = (if (player.x q <? 0) || (game.width g <? player.x q + player.width p)
        then 0 else player.velocityX p * 0.8)).
  { pose proof (physics_horizontal g p) as H. cbn zeta in H. fold q in H.
    rewrite <- Hv.
    destruct (player.x q <? 0); [|destruct (game.width g <? _)]; cbn;
      injection H as _ ->; reflexivity. }
  repeat split; [exact Hv | subst q; now rewrite integrated_x, integrated_velocityX, HA, HD
                | exact Hp |].
  intros H0. rewrite Hp, H0. now destruct (_ || _).
Qed.

Lemma C5_friction_witness :
  let g := game800 ∅ in
  let p := standingAt 100 4 in
  held (game.keys g) "KeyA" = false /\ held (game.keys g) "KeyD" = false
  /\ player.velocityX (GameplayState.physics g p) = 3.2
  /\ player.velocityX (GameplayState.physics g (standingAt 2 (-4))) = 0.
Proof.
  cbn zeta.
  pose proof (C5_friction (game800 ∅) (standingAt 100 4) eq_refl eq_refl) as (_ & _ & H & _).
  pose proof (C5_friction (game800 ∅) (standingAt 2 (-4)) eq_refl eq_refl) as (_ & _ & H' & _).
  split; [reflexivity|]. split; [reflexivity|].
  split; [rewrite H | rewrite H']; vm_compute; reflexivity.
Defined.

(** The width of the player and of the surface come from the container
    alone: on every screen of a session the player is
    24 * (containerWidth / 800) wide, and the surface is as wide as the
    canvas was made for that container. *)
Lemma reachable_width unsignedLong this :
  reachable unsignedLong this ->
  let containerWidth :=
    orElse (default nan (canvas.parentClientWidth (GameplayState.canvas this))) 800 in
  player.width (GameplayState.player this) = 24 * (containerWidth / 800)
  /\ game.width (GameplayState.game this) = unsignedLong containerWidth.
Proof.
  induction 1 as [c this Hn|e this Hr IH]; cbn zeta.
  - unfold GameplayState.new in Hn. destruct (canvas.context2d c); [|discriminate].
    injection Hn as <-. split; reflexivity.
  - destruct e as [now|code|code|cw]; cbn [handle]; [|exact IH|exact IH|split; reflexivity].
    rewrite tick_player, tick_game.
    destruct (physics_tunables (GameplayState.game this) (GameplayState.player this)) as (-> & _).
    unfold GameplayState.tick. rewrite update_screen. exact IH.
Qed.

(** So the player is narrower than the surface: 0.03 of the container's width.
    Here for every container that is a whole number of pixels wide, from 1 to
    8192. *)
Example player_fits : fitsFrom (N.to_nat 8192) 1 = true.
Proof. vm_compute. reflexivity. Qed.

(** Only for a player wider than the surface, which no screen has, could both
    tests hold of the integrated x; the left one is made first. *)
Example wider_than_surface :
  let g := game.mk 10 400 ∅ 0.5 360 in
  let p := standingAt (-1) 0 in
  let q := GameplayState.integrated g p in
  (player.width p <=? game.width g) = false
  /\ (player.x q <? 0) = true
  /\ (game.width g <? player.x q + player.width p) = true
  /\ player.x (GameplayState.physics g p) = 0.
Proof. vm_compute. repeat split. Qed.

(** C6.  For every player that is not wider than the surface, as the players
    of all screens are, and for every key map: let x be the integrated
    position.  If x < 0, the tick ends with x = 0 and velocityX = 0.  If
    x + width > surfaceWidth, the tick ends with x = surfaceWidth - width and
    velocityX = 0.  The two tests never hold together: the binary64 sum of a
    negative x and the width is not above the width.  If neither holds, x and
    velocityX are the integrated ones. *)
Theorem C6_walls g p :
  (player.width p <=? game.width g) = true ->
  let q := GameplayState.integrated g p in
  let p' := GameplayState.physics g p in
  ((player.x q <? 0) = true -> player.x p' = 0 /\ player.velocityX p' = 0)
  /\ ((game.width g <? player.x q + player.width p) = true ->
       player.x p' = game.width g - player.width p /\ player.velocityX p' = 0)
  /\ ((player.x q <? 0) = true -> (game.width g <? player.x q + player.width p) = false)
  /\ ((player.x q <? 0) = false -> (game.width g <? player.x q + player.width p) = false ->
       player.x p' = player.x q /\ player.velocityX p' = player.velocityX q).
Proof.
  intros Hw q p'. pose proof (physics_horizontal g p) as H. cbn zeta in H. fold q p' in H.
  assert (Hx : (player.x q <? 0) = true ->
               (game.width g <? player.x q + player.width p) = false).
  { intros Hl. now apply add_negative_leb. }
  split; [|split; [|split; [exact Hx|]]].
  - intros Hl. rewrite Hl in H. now injection H.
  - intros Hr. destruct (player.x q <? 0) eqn:Hl.
    + rewrite (Hx eq_refl) in Hr. discriminate.
    + rewrite Hr in H. now injection H.
  - intros Hl Hr. rewrite Hl, Hr in H. now injection H.
Qed.

Lemma C6_walls_witness :
  let g := game800 ∅ in
  (player.width (standingAt 2 (-4)) <=? game.width g) = true
  /\ player.x (GameplayState.physics g (standingAt 2 (-4))) = 0
  /\ player.velocityX (GameplayState.physics g (standingAt 2 (-4))) = 0
  /\ player.x (GameplayState.physics g (standingAt 775 4)) = 776
  /\ player.velocityX (GameplayState.physics g (standingAt 775 4)) = 0.
Proof.
  cbn zeta. split; [reflexivity|].
  destruct (C6_walls (game800 ∅) (standingAt 2 (-4)) eq_refl) as (H & _).
  destruct (C6_walls (game800 ∅) (standingAt 775 4) eq_refl) as (_ & H' & _).
  destruct H as [-> ->]; [reflexivity|].
  destruct H' as [-> ->]; [reflexivity|]. repeat split.
Defined.

(** C4, as stated, fails in its second half on a player whose onGround is true
    though it is above the ground (y + height = 132 < 360, no key held):
    nothing in [update] resets the flag, it is still true after the tick.  The
    screen of an 804 pixel wide container gets there by itself.  Its first
    tick lands the player: the clamp stores y = 361.8 - 32.16 = 329.64
    (rounded), and 329.64 + 32.16 is the binary64 number just below 361.8, so
    the equality of the first half fails.  At its second tick y + height >=
    groundY is therefore false, and onGround stays true. *)
Lemma C4_counterexample :
  (let g := game800 ∅ in
   let p := player.mk 100 100 24 32 0 0 4 12 true "#FF6B6B" in
   let q := GameplayState.integrated g p in
   (game.groundY g <=? player.y q + player.height p) = false
   /\ player.onGround (GameplayState.physics g p) = true)
  /\ match screenOfWidth 804 with
     | Some this =>
         let g := GameplayState.game this in
         let p := GameplayState.player this in
         let q := GameplayState.integrated g p in
         let p' := GameplayState.physics g p in
         let q' := GameplayState.integrated g p' in
         let p'' := GameplayState.physics g p' in
         ((game.groundY g <=? player.y q + player.height p) = true
          /\ player.onGround p' = true
          /\ (player.y p' + player.height p' =? game.groundY g) = false
          /\ (player.y p' + player.height p' <? game.groundY g) = true)
         /\ ((game.groundY g <=? player.y q' + player.height p') = false
             /\ player.onGround p'' = true)
     | None => False
     end.
Proof. vm_compute. repeat split. Qed.

(** C4, amended.  Let y be the integrated position.  If y + height >= groundY,
    the tick ends with y = groundY - height (the binary64 difference),
    velocityY = 0 and onGround = true; y + height == groundY then holds exactly
    when (groundY - height) + height == groundY does.  Otherwise y and
    velocityY are the integrated ones and onGround is what the jump step left:
    false if the player was airborne or has just jumped, and still true if it
    was true and no jump started. *)
Theorem C4_ground g p :
  let q := GameplayState.integrated g p in
  let p' := GameplayState.physics g p in
  ((game.groundY g <=? player.y q + player.height p) = true ->
     player.y p' = game.groundY g - player.height p
     /\ player.velocityY p' = 0 /\ player.onGround p' = true
     /\ (player.y p' + player.height p' =? game.groundY g)
        = ((game.groundY g - player.height p) + player.height p =? game.groundY g))
  /\ ((game.groundY g <=? player.y q + player.height p) = false ->
     player.y p' = player.y q /\ player.velocityY p' = player.velocityY q
     /\ player.onGround p' = player.onGround p && negb (held (game.keys g) "Space")).
Proof.
  intros q p'. pose proof (physics_vertical g p) as H. cbn zeta in H. fold q p' in H.
  destruct (physics_tunables g p) as (_ & Hh & _). fold p' in Hh.
  unfold vertical in H. split; intros E; rewrite E in H; injection H as Hy Hv Ho.
  - rewrite Hh, Hy. now repeat split.
  - subst q. now rewrite <- integrated_onGround.
Qed.

Lemma C4_ground_witness :
  let g := game800 ∅ in
  let p := player.mk 100 300 24 32 0 0 4 12 false "#FF6B6B" in
  vertical (GameplayState.physics g p) = (300.5, 0.5, false)
  /\ vertical (GameplayState.physics g (GameplayState.physics g standing)) = vertical standing.
Proof.
  cbn zeta. split.
  - pose proof (C4_ground (game800 ∅) (player.mk 100 300 24 32 0 0 4 12 false "#FF6B6B"))
      as [_ H].
    destruct H as (Hy & Hv & Ho); [reflexivity|]. unfold vertical. rewrite Hy, Hv, Ho.
    reflexivity.
  - pose proof (C4_ground (game800 ∅) (GameplayState.physics (game800 ∅) standing)) as [H _].
    destruct H as (Hy & Hv & Ho & _); [reflexivity|]. unfold vertical. rewrite Hy, Hv, Ho.
    reflexivity.
Defined.

Lemma horizontalMovement_onGround g p :
  player.onGround (GameplayState.horizontalMovement g p) = player.onGround p.
Proof.
  unfold GameplayState.horizontalMovement.
  destruct (held _ "KeyA"); [|destruct (held _ "KeyD")]; reflexivity.
Qed.

(** While airborne, the tick does not look at the jump key. *)
Lemma airborne_ignores_jump g keys1 keys2 p :
  player.onGround p = false ->
  held keys1 "KeyA" = held keys2 "KeyA" ->
  held keys1 "KeyD" = held keys2 "KeyD" ->
  GameplayState.physics (withKeys keys1 g) p = GameplayState.physics (withKeys keys2 g) p.
Proof.
  intros Ho HA HD.
  assert (Hj : forall keys q, player.onGround q = false ->
                 GameplayState.jumping (withKeys keys g) q = q).
  { intros keys q Hq. unfold GameplayState.jumping. now rewrite Hq, andb_false_r. }
  assert (Hh : GameplayState.horizontalMovement (withKeys keys1 g) p
               = GameplayState.horizontalMovement (withKeys keys2 g) p).
  { unfold GameplayState.horizontalMovement. cbn. now rewrite HA, HD. }
  unfold GameplayState.physics, GameplayState.integrated.
  rewrite Hh, !Hj by now rewrite horizontalMovement_onGround.
  reflexivity.
Qed.

(** C3, as stated, fails on the player at rest on the ground of the 800 x 400
    layout: with Space held, the jump step stores velocityY = -12 and gravity
    is added before the tick ends, so the tick leaves velocityY = -11.5. *)
Lemma C3_counterexample :
  let g := game800 (keysHeld ["Space"]) in
  let p' := GameplayState.physics g standing in
  player.onGround standing = true /\ held (game.keys g) "Space" = true
  /\ player.velocityY p' = -11.5
  /\ - player.jumpPower standing = -12
  /\ (player.velocityY p' =? - player.jumpPower standing) = false.
Proof. vm_compute. repeat split. Qed.

(** C3, amended.  From onGround = true, in a tick with Space held, the jump
    step stores velocityY = -jumpPower and onGround = false, and gravity is
    added in the same tick: the integrated velocityY is -jumpPower + gravity
    and, unless the player meets the ground again at once
    (y + height >= groundY), the tick ends with velocityY = -jumpPower + gravity
    and onGround = false.  On any tick that starts airborne the jump key is not
    looked at: the tick gives the same player whether Space is held or not,
    and its integrated velocityY is the old one plus gravity. *)
Theorem C3_jump g p :
  player.onGround p = true ->
  held (game.keys g) "Space" = true ->
  let j := GameplayState.jumping g (GameplayState.horizontalMovement g p) in
  let q := GameplayState.integrated g p in
  let p' := GameplayState.physics g p in
  (player.velocityY j = - player.jumpPower p /\ player.onGround j = false)
  /\ (player.velocityY q = - player.jumpPower p + game.gravity g
      /\ player.onGround q = false)
  /\ ((game.groundY g <=? player.y q + player.height p) = false ->
      player.velocityY p' = - player.jumpPower p + game.gravity g
      /\ player.onGround p' = false)
  /\ (forall p1 keys,
        player.onGround p1 = false ->
        GameplayState.physics (withKeys (<["Space" := true]> keys) g) p1
        = GameplayState.physics (withKeys (<["Space" := false]> keys) g) p1
        /\ player.velocityY (GameplayState.integrated (withKeys (<["Space" := true]> keys) g) p1)
           = player.velocityY p1 + game.gravity g).
Proof.
  intros Ho Hs j q p'.
  assert (Hq : player.velocityY q = - player.jumpPower p + game.gravity g
               /\ player.onGround q = false).
  { subst q. now rewrite integrated_velocityY, integrated_onGround, Ho, Hs. }
  split; [|split; [exact Hq|split]].
  - subst j. unfold GameplayState.jumping.
    rewrite horizontalMovement_onGround, Ho, Hs. cbn.
    destruct (horizontalMovement_tunables g p) as (_ & _ & _ & -> & _). now split.
  - intros E. pose proof (physics_vertical g p) as H. cbn zeta in H. fold q p' in H.
    rewrite E in H. unfold vertical in H. injection H as _ Hv Hg.
    rewrite Hv, Hg. exact Hq.
  - intros p1 keys H1. split.
    + apply airborne_ignores_jump; [exact H1| |]; unfold held;
        now rewrite !lookup_insert_ne.
    + now rewrite integrated_velocityY, H1.
Qed.

Lemma C3_jump_witness :
  let g := game800 (keysHeld ["Space"]) in
  let p' := GameplayState.physics g standing in
  player.onGround standing = true /\ held (game.keys g) "Space" = true
  /\ player.velocityY p' = -11.5 /\ player.onGround p' = false.
Proof.
  cbn zeta. split; [reflexivity|]. split; [reflexivity|].
  destruct (C3_jump (game800 (keysHeld ["Space"])) standing eq_refl eq_refl)
    as (_ & _ & H & _).
  destruct H as [-> ->]; [reflexivity|]. split; reflexivity.
Defined.

End TickFacts.

(** * Pause *)

Section Pause.
Context {W : Type}.

(** C8.  In the state Gameplay, with Escape held during a call of [update]:
    when [update] returns, [getCurrentState] answers Pause, on the state
    manager that the page's three screens share; the observer, if there is
    one, has been told of Pause, once. *)
Theorem C8_escape_pauses now (app : App.t W) :
  StateManager.getCurrentState (App.stateManager app) = GAMEPLAY ->
  held (game.keys (GameplayState.game (App.gameplayState app))) "Escape" = true ->
  let after := GameplayState.update now (App.gameplayState app)
                 (App.stateManager app) (App.world app) in
  StateManager.getCurrentState after.1.2 = PAUSE
  /\ after.2 = notify (StateManager.onStateChange (App.stateManager app)) PAUSE (App.world app).
Proof.
  intros Hs He after. subst after. unfold GameplayState.update. rewrite He.
  pose proof (setState_state PAUSE (App.stateManager app) (App.world app)) as H1.
  pose proof (setState_world PAUSE (App.stateManager app) (App.world app)) as H2.
  destruct (StateManager.setState _ _ _). cbn in *. now split.
Qed.

End Pause.

Lemma C8_escape_pauses_witness :
  let pressed := GameplayState.keydown "Escape" in
  let app := App.mk (StateManager.setState GAMEPLAY StateManager.new tt).1
               (pressed (GameplayState.mk (canvas.mk 800 400 true (Some 800)) (game800 ∅)
                           standing (Some initializeSprites))) tt true in
  StateManager.getCurrentState (App.stateManager app) = GAMEPLAY
  /\ held (game.keys (GameplayState.game (App.gameplayState app))) "Escape" = true
  /\ StateManager.getCurrentState
       (GameplayState.update noClock (App.gameplayState app) (App.stateManager app)
          (App.world app)).1.2 = PAUSE.
Proof.
  cbn zeta. split; [reflexivity|]. split; [reflexivity|].
  apply (C8_escape_pauses noClock
           (App.mk (StateManager.setState GAMEPLAY StateManager.new tt).1
              (GameplayState.keydown "Escape"
                 (GameplayState.mk (canvas.mk 800 400 true (Some 800)) (game800 ∅)
                    standing (Some initializeSprites))) tt true)); reflexivity.
Defined.

(** * The fall from y = 100 to the ground at 360 *)

Section Fall.
Implicit Types (g : game.t) (p : player.t).

(** Without the jump key, the vertical part of a tick is [fall]. *)
Lemma physics_fall g p :
  held (game.keys g) "Space" = false ->
  vertical (GameplayState.physics g p)
  = fall (game.gravity g) (game.groundY g) (player.height p) (vertical p).
Proof.
  intros Hs. pose proof (physics_vertical g p) as H. cbn zeta in H. rewrite H.
  unfold fall, vertical.
  rewrite integrated_y, integrated_velocityY, integrated_onGround, Hs, andb_true_r.
  destruct (player.onGround p); reflexivity.
Qed.

Lemma ticks_game n now this :
  GameplayState.game (ticks n now this) = GameplayState.game this.
Proof.
  revert this; induction n as [|n IH]; intros this; cbn; [reflexivity|].
  now rewrite IH, tick_game.
Qed.

Lemma ticks_height n now this :
  player.height (GameplayState.player (ticks n now this))
  = player.height (GameplayState.player this).
Proof.
  revert this; induction n as [|n IH]; intros this; cbn; [reflexivity|].
  rewrite IH, tick_player. apply physics_tunables.
Qed.

Lemma ticks_fall n now this :
  held (game.keys (GameplayState.game this)) "Space" = false ->
  vertical (GameplayState.player (ticks n now this))
  = falls n (game.gravity (GameplayState.game this)) (game.groundY (GameplayState.game this))
      (player.height (GameplayState.player this)) (vertical (GameplayState.player this)).
Proof.
  revert this; induction n as [|n IH]; intros this Hs; cbn [ticks falls]; [reflexivity|].
  rewrite IH by now rewrite tick_game.
  rewrite tick_game, tick_player, physics_fall by exact Hs.
  destruct (physics_tunables (GameplayState.game this) (GameplayState.player this))
    as (_ & -> & _).
  reflexivity.
Qed.

(** The fall of the scenario, tick by tick: for the first 29 ticks the player
    is airborne, at [fallY n], short of the ground. *)
Lemma scenario_airborne n :
  (n < 30)%nat ->
  let v := falls n 0.5 360 32 (100, 0, false) in
  v.2 = false /\ v.1.1 = fallY n /\ (360 - 32 <=? fallY n) = false.
Proof.
  intros Hn. do 30 (destruct n as [|n]; [vm_compute; repeat split|]). lia.
Qed.

Lemma scenario_landing :
  falls 30 0.5 360 32 (100, 0, false) = (328, 0, true)
  /\ (360 - 32 <=? fallY 30) = true /\ fallY 30 = 332.5.
Proof. vm_compute. repeat split. Qed.

(** C7.  A gameplay screen with groundY = 360, height = 32, gravity = 0.5,
    the player at y = 100 with velocityY = 0 and onGround = false, no key
    held (whatever x, velocityX, the other tunables and the clock are): the
    player is airborne after each of the first 29 ticks, at
    y = 100 + 0.5*1 + ... + 0.5*n after the [n]-th, and after the 30th tick
    onGround is true, y = 328 and velocityY = 0.  And 30 is the least [n]
    with 100 + 0.5*1 + ... + 0.5*n >= 360 - 32. *)
Theorem C7_landing now this :
  let g := GameplayState.game this in
  let p := GameplayState.player this in
  game.groundY g = 360 -> player.height p = 32 -> game.gravity g = 0.5 ->
  player.y p = 100 -> player.velocityY p = 0 -> player.onGround p = false ->
  (forall code, held (game.keys g) code = false) ->
  (forall n, (n < 30)%nat ->
     player.onGround (GameplayState.player (ticks n now this)) = false
     /\ player.y (GameplayState.player (ticks n now this)) = fallY n
     /\ (360 - 32 <=? fallY n) = false)
  /\ player.onGround (GameplayState.player (ticks 30 now this)) = true
  /\ player.y (GameplayState.player (ticks 30 now this)) = 328
  /\ player.velocityY (GameplayState.player (ticks 30 now this)) = 0
  /\ (360 - 32 <=? fallY 30) = true.
Proof.
  intros g p Hg Hh Hgr Hy Hv Ho Hk.
  assert (F : forall n, vertical (GameplayState.player (ticks n now this))
                        = falls n 0.5 360 32 (100, 0, false)).
  { intros n. rewrite ticks_fall by apply Hk. fold g p. unfold vertical.
    now rewrite Hg, Hh, Hgr, Hy, Hv, Ho. }
  split.
  - intros n Hn. destruct (scenario_airborne n Hn) as (H1 & H2 & H3).
    rewrite <- F in H1, H2. auto.
  - destruct scenario_landing as (H & H' & _). rewrite <- F in H.
    revert H. generalize (GameplayState.player (ticks 30 now this)). intros q H.
    unfold vertical in H. injection H as -> -> ->. auto.
Qed.

Lemma C7_landing_witness :
  let this := GameplayState.mk (canvas.mk 800 400 true (Some 800)) (game800 ∅)
                (player.mk 100 100 24 32 0 0 4 12 false "#FF6B6B") None in
  let now := fun _ : string => 0 in
  (forall code, held (game.keys (GameplayState.game this)) code = false)
  /\ player.onGround (GameplayState.player (ticks 29 now this)) = false
  /\ player.onGround (GameplayState.player (ticks 30 now this)) = true
  /\ player.y (GameplayState.player (ticks 30 now this)) = 328.
Proof.
  cbn zeta. split; [reflexivity|].
  destruct (C7_landing (fun _ => 0)
              (GameplayState.mk (canvas.mk 800 400 true (Some 800)) (game800 ∅)
                 (player.mk 100 100 24 32 0 0 4 12 false "#FF6B6B") None))
    as (H29 & H30 & Hy & _); try reflexivity.
  split; [apply (H29 29%nat); lia|]. split; assumption.
Defined.

End Fall.

(** * Ground contact over a session *)

Section GroundContact.
Variable unsignedLong : float -> float.

Lemma resizeCanvas_grounded this :
  grounded this -> grounded (GameplayState.resizeCanvas unsignedLong this).
Proof.
  unfold grounded. cbn. intros H Ho. destruct (H Ho) as [Hv _].
  split; [exact Hv|apply sameNumber_refl].
Qed.

Lemma new_grounded c this : GameplayState.new unsignedLong c = Some this -> grounded this.
Proof.
  unfold GameplayState.new. destruct (canvas.context2d c); [|discriminate].
  intros [= <-]. unfold grounded. cbn. discriminate.
Qed.

Lemma tick_grounded now this : grounded this -> grounded (GameplayState.tick now this).
Proof.
  unfold grounded. rewrite tick_player, tick_game.
  set (g := GameplayState.game this). set (p := GameplayState.player this).
  cbn zeta. intros H.
  destruct (physics_tunables g p) as (_ & -> & _).
  destruct (game.groundY g <=? player.y (GameplayState.integrated g p) + player.height p)
    eqn:E.
  - destruct (physics_clamped g p E) as (-> & -> & _).
    intros _. split; [reflexivity|apply sameNumber_refl].
  - destruct (physics_unclamped g p E) as (-> & -> & ->).
    rewrite integrated_onGround, integrated_y, integrated_velocityY.
    destruct (player.onGround p); [|discriminate].
    destruct (held _ "Space"); [discriminate|]. intros _.
    destruct H as [-> Hy]; [reflexivity|]. split; [reflexivity|].
    eapply sameNumber_trans; [apply add_zero_same|exact Hy].
Qed.

Lemma handle_grounded e this : grounded this -> grounded (handle unsignedLong e this).
Proof.
  destruct e as [now|code|code|cw]; cbn [handle].
  - apply tick_grounded.
  - easy.
  - easy.
  - intros H. apply resizeCanvas_grounded. exact H.
Qed.

Lemma reachable_grounded this : reachable unsignedLong this -> grounded this.
Proof.
  induction 1 as [c this H|e this _ IH]; [exact (new_grounded _ _ H)|].
  now apply handle_grounded.
Qed.

Lemma ticks_reachable n now this :
  reachable unsignedLong this -> reachable unsignedLong (ticks n now this).
Proof.
  revert this; induction n as [|n IH]; intros this H; cbn; [exact H|].
  apply IH. exact (reachable_handle unsignedLong (Tick now) this H).
Qed.

(** After a tick, an airborne player is short of the ground line. *)
Lemma tick_airborne now this :
  let p := GameplayState.player (GameplayState.tick now this) in
  let g := GameplayState.game (GameplayState.tick now this) in
  player.onGround p = false ->
  (game.groundY g <=? player.y p + player.height p) = false.
Proof.
  cbn zeta. rewrite tick_player, tick_game.
  set (g := GameplayState.game this). set (p := GameplayState.player this).
  destruct (physics_tunables g p) as (_ & -> & _).
  destruct (game.groundY g <=? player.y (GameplayState.integrated g p) + player.height p)
    eqn:E.
  - destruct (physics_clamped g p E) as (_ & _ & ->). discriminate.
  - destruct (physics_unclamped g p E) as (-> & _ & _). intros _. exact E.
Qed.

(** C2, amended.  On every screen that a session reaches (construction, then
    ticks, key events and resizes in any order), after one more tick:
    - if onGround is true, velocityY is 0 and y is the number
      groundY - height that the clamp stores (the binary64 difference);
    - if onGround is false, y + height >= groundY is false: y + height is
      below groundY, unless one of them is NaN;
    - so, provided groundY - height plus height gives groundY back, and
      neither y + height nor groundY is NaN, y + height <= groundY holds, with
      equality when onGround is true. *)
Theorem C2_ground_contact this now :
  reachable unsignedLong this ->
  let p := GameplayState.player (GameplayState.tick now this) in
  let g := GameplayState.game (GameplayState.tick now this) in
  (player.onGround p = true ->
     player.velocityY p = 0 /\ sameNumber (player.y p) (game.groundY g - player.height p))
  /\ (player.onGround p = false ->
     (game.groundY g <=? player.y p + player.height p) = false
     /\ ((player.y p + player.height p <? game.groundY g) = true
         \/ is_nan (game.groundY g) = true \/ is_nan (player.y p + player.height p) = true))
  /\ (((game.groundY g - player.height p) + player.height p =? game.groundY g) = true ->
      is_nan (game.groundY g) = false -> is_nan (player.y p + player.height p) = false ->
      (player.y p + player.height p <=? game.groundY g) = true
      /\ (player.onGround p = true ->
          (player.y p + player.height p =? game.groundY g) = true)).
Proof.
  intros R p g.
  assert (G : grounded (GameplayState.tick now this))
    by (apply tick_grounded, reachable_grounded, R).
  unfold grounded in G. fold p g in G.
  pose proof (tick_airborne now this) as A. cbn zeta in A. fold p g in A.
  assert (T : player.onGround p = true ->
              ((game.groundY g - player.height p) + player.height p =? game.groundY g) = true ->
              (player.y p + player.height p =? game.groundY g) = true).
  { intros Ho Hr. destruct (G Ho) as [_ Hy].
    destruct (sameNumber_add_compare _ _ (player.height p) (game.groundY g) Hy) as (-> & _).
    exact Hr. }
  split; [exact G|]. split.
  - intros Ho. split; [exact (A Ho)|]. apply leb_total, A, Ho.
  - intros Hr Hg Hs. split; [|intros Ho; now apply T].
    destruct (player.onGround p) eqn:Ho.
    + apply eqb_leb. now apply T.
    + destruct (leb_total _ _ (A eq_refl)) as [H|[H|H]]; [now apply ltb_leb|congruence..].
Qed.

End GroundContact.

(** C2, as stated, fails on the screen that the constructor builds in an 804
    pixel wide container (it resizes before it returns: groundY = 361.8,
    height = 32.16).  The first tick lands the player, onGround = true, at
    y = 361.8 - 32.16 = 329.64, and y + height = 329.64 + 32.16 is
    361.79999999999995, the binary64 number just below groundY: y + height ==
    groundY is false.  In a container 996 pixels wide (groundY = 448.2,
    height = 39.84) the first tick leaves y + height = 448.20000000000005,
    just above groundY: y + height <= groundY is false. *)
Lemma C2_counterexample :
  match screenOfWidth 804 with
  | Some this =>
      let this' := GameplayState.tick (fun _ => 0) this in
      let p := GameplayState.player this' in
      let g := GameplayState.game this' in
      reachable integerPart this'
      /\ player.onGround p = true
      /\ (player.y p + player.height p =? game.groundY g) = false
  | None => False
  end
  /\ match screenOfWidth 996 with
     | Some this =>
         let this' := GameplayState.tick (fun _ => 0) this in
         let p := GameplayState.player this' in
         let g := GameplayState.game this' in
         reachable integerPart this'
         /\ (player.y p + player.height p <=? game.groundY g) = false
     | None => False
     end.
Proof.
  split.
  - destruct (screenOfWidth 804) as [this|] eqn:E; [|vm_compute in E; discriminate].
    split; [exact (reachable_handle _ (Tick _) _ (reachable_new _ _ _ E))|].
    vm_compute in E. injection E as <-. vm_compute. split; reflexivity.
  - destruct (screenOfWidth 996) as [this|] eqn:E; [|vm_compute in E; discriminate].
    split; [exact (reachable_handle _ (Tick _) _ (reachable_new _ _ _ E))|].
    vm_compute in E. injection E as <-. vm_compute. reflexivity.
Qed.

Lemma C2_ground_contact_witness :
  match screenOfWidth 800 with
  | Some this =>
      let p := GameplayState.player (GameplayState.tick (fun _ => 0) this) in
      let g := GameplayState.game (GameplayState.tick (fun _ => 0) this) in
      reachable integerPart this
      /\ player.onGround p = true
      /\ (player.y p + player.height p =? game.groundY g) = true
  | None => False
  end.
Proof.
  destruct (screenOfWidth 800) as [this|] eqn:E; [|vm_compute in E; discriminate].
  assert (R : reachable integerPart this) by exact (reachable_new _ _ _ E).
  destruct (C2_ground_contact integerPart this (fun _ => 0) R) as (_ & _ & H).
  vm_compute in E. injection E as <-.
  split; [exact R|]. split; [reflexivity|].
  apply H; reflexivity.
Defined.

(** * Further properties: the controls *)

Section Controls.
Implicit Types (g : game.t) (p : player.t).

(** The physics reads the key map through KeyA, KeyD and Space only. *)
Lemma physics_keys g keys1 keys2 p :
  held keys1 "KeyA" = held keys2 "KeyA" ->
  held keys1 "KeyD" = held keys2 "KeyD" ->
  held keys1 "Space" = held keys2 "Space" ->
  GameplayState.physics (withKeys keys1 g) p = GameplayState.physics (withKeys keys2 g) p.
Proof.
  intros HA HD HS.
  unfold GameplayState.physics, GameplayState.integrated, GameplayState.jumping,
    GameplayState.horizontalMovement.
  cbn [game.keys withKeys]. rewrite HA, HD, HS. reflexivity.
Qed.

(** X1.  With KeyA held the tick moves the player to the left, whether KeyD
    is held as well or not: the integrated velocityX is -speed, and the tick
    ends with it unless a wall clamp stores 0. *)
Theorem X1_left_wins g p :
  held (game.keys g) "KeyA" = true ->
  let q := GameplayState.integrated g p in
  player.velocityX q = - player.speed p
  /\ player.x q = player.x p + - player.speed p
  /\ player.velocityX (GameplayState.physics g p)
     = (if (player.x q <? 0) || (game.width g <? player.x q + player.width p)
        then 0 else - player.speed p).
Proof.
  intros HA q.
  assert (Hv : player.velocityX q = - player.speed p)
    by (subst q; now rewrite integrated_velocityX, HA).
  split; [exact Hv|]. split; [subst q; now rewrite integrated_x, integrated_velocityX, HA|].
  pose proof (physics_horizontal g p) as H. cbn zeta in H. fold q in H.
  rewrite <- Hv.
  destruct (player.x q <? 0); [|destruct (game.width g <? _)]; cbn;
    injection H as _ ->; reflexivity.
Qed.

Lemma X1_left_wins_witness :
  let g := game800 (keysHeld ["KeyA"; "KeyD"]) in
  held (game.keys g) "KeyA" = true /\ held (game.keys g) "KeyD" = true
  /\ player.velocityX (GameplayState.physics g standing) = -4
  /\ player.x (GameplayState.physics g standing) = 96.
Proof.
  cbn zeta. split; [reflexivity|]. split; [reflexivity|].
  destruct (X1_left_wins (game800 (keysHeld ["KeyA"; "KeyD"])) standing eq_refl)
    as (_ & _ & ->).
  split; reflexivity.
Defined.

(** X2.  [update] looks at four key codes and no other: two key maps that
    agree on KeyA, KeyD, Space and Escape give the same player, the same
    state and the same world.  (The arrow keys, for one, move nothing.) *)
Theorem X2_update_reads_four_keys {W} now this keys1 keys2
    (stateManager : StateManager.t W) (w : W) :
  held keys1 "KeyA" = held keys2 "KeyA" ->
  held keys1 "KeyD" = held keys2 "KeyD" ->
  held keys1 "Space" = held keys2 "Space" ->
  held keys1 "Escape" = held keys2 "Escape" ->
  let screen keys :=
    GameplayState.mk (GameplayState.canvas this) (withKeys keys (GameplayState.game this))
      (GameplayState.player this) (GameplayState.sprites this) in
  let r1 := GameplayState.update now (screen keys1) stateManager w in
  let r2 := GameplayState.update now (screen keys2) stateManager w in
  GameplayState.player r1.1.1 = GameplayState.player r2.1.1
  /\ GameplayState.sprites r1.1.1 = GameplayState.sprites r2.1.1
  /\ r1.1.2 = r2.1.2 /\ r1.2 = r2.2.
Proof.
  intros HA HD HS HE screen r1 r2. subst r1 r2 screen.
  unfold GameplayState.update.
  cbn [GameplayState.game GameplayState.player GameplayState.sprites GameplayState.canvas
       game.keys withKeys].
  rewrite (physics_keys _ keys1 keys2) by assumption. rewrite HE.
  destruct (held keys2 "Escape"); [destruct (StateManager.setState _ _ _)|]; now repeat split.
Qed.

Lemma X2_update_reads_four_keys_witness :
  let this keys := GameplayState.mk (canvas.mk 800 400 true (Some 800)) (game800 keys)
                     standing None in
  let now := fun _ : string => 0 in
  GameplayState.player
    (GameplayState.update now (this (keysHeld ["ArrowLeft"; "KeyD"])) StateManager.new tt).1.1
  = GameplayState.player
      (GameplayState.update now (this (keysHeld ["KeyD"])) StateManager.new tt).1.1.
Proof.
  cbn zeta.
  apply (X2_update_reads_four_keys (fun _ => 0)
           (GameplayState.mk (canvas.mk 800 400 true (Some 800)) (game800 ∅) standing None)
           (keysHeld ["ArrowLeft"; "KeyD"]) (keysHeld ["KeyD"]) StateManager.new tt);
    reflexivity.
Defined.

(** X3.  The physics of the class-based page is the [updatePlayer] of the
    first page with KeyA for ArrowLeft and KeyD for ArrowRight: on key maps in
    which the arrows are held as the letters are, the two give the same
    player. *)
Theorem X3_updatePlayer_is_physics g p :
  held (game.keys g) "ArrowLeft" = held (game.keys g) "KeyA" ->
  held (game.keys g) "ArrowRight" = held (game.keys g) "KeyD" ->
  updatePlayer g p = GameplayState.physics g p.
Proof.
  intros HL HR. unfold updatePlayer. rewrite HL, HR. reflexivity.
Qed.

Lemma X3_updatePlayer_is_physics_witness :
  let g := game800 (arrowsForLetters (keysHeld ["KeyD"; "Space"])) in
  held (game.keys g) "ArrowRight" = true
  /\ updatePlayer g standing = GameplayState.physics g standing
  /\ vertical (updatePlayer g standing) = (316.5, -11.5, false).
Proof.
  cbn zeta. split; [reflexivity|].
  rewrite (X3_updatePlayer_is_physics
             (game800 (arrowsForLetters (keysHeld ["KeyD"; "Space"]))) standing eq_refl eq_refl).
  split; reflexivity.
Defined.

End Controls.

(** * Further properties: resizing *)

Section Resizing.
Variable unsignedLong : float -> float.

(** X4.  [resizeCanvas] is not idempotent.  A second call with the container
    unchanged leaves the canvas, the game, the sprites and the player as the
    first call made them, but for the player's x, which it multiplies by
    scaleX = containerWidth / 800 once more: x is scaled against the
    800 pixel layout at every call, not against the previous size. *)
Theorem X4_resize_twice this :
  let containerWidth :=
    orElse (default nan (canvas.parentClientWidth (GameplayState.canvas this))) 800 in
  let once := GameplayState.resizeCanvas unsignedLong this in
  let twice := GameplayState.resizeCanvas unsignedLong once in
  GameplayState.canvas twice = GameplayState.canvas once
  /\ GameplayState.game twice = GameplayState.game once
  /\ GameplayState.sprites twice = GameplayState.sprites once
  /\ GameplayState.player twice
     = player.set_x (player.x (GameplayState.player once) * (containerWidth / 800))
         (GameplayState.player once)
  /\ player.x (GameplayState.player once)
     = player.x (GameplayState.player this) * (containerWidth / 800).
Proof. cbn. repeat split. Qed.

(** In a container 1600 pixels wide every resize event doubles x: 100, 200
    after the constructor's own call, 400 after one event, 800 after two. *)
Example resize_drift :
  (fun this =>
     map (fun n => player.x (GameplayState.player
                               (Nat.iter n (handle integerPart (Resize 1600)) this)))
         [0; 1; 2]%nat)
    <$> screenOfWidth 1600
  = Some [200; 400; 800].
Proof. vm_compute. reflexivity. Qed.

(** X5.  A resize takes nothing from the old layout but x: two screens in
    containers of the same width have, once resized, the same canvas size,
    the same tunables and the same y (the ground line minus the height,
    wherever the player was, in the air or not), while each keeps its own
    velocities, onGround flag, colour, keys and sprites. *)
Theorem X5_resize_layout this that :
  canvas.parentClientWidth (GameplayState.canvas this)
  = canvas.parentClientWidth (GameplayState.canvas that) ->
  let this' := GameplayState.resizeCanvas unsignedLong this in
  let that' := GameplayState.resizeCanvas unsignedLong that in
  (canvas.width (GameplayState.canvas this') = canvas.width (GameplayState.canvas that')
   /\ canvas.height (GameplayState.canvas this') = canvas.height (GameplayState.canvas that')
   /\ tunables this' = tunables that'
   /\ player.y (GameplayState.player this') = player.y (GameplayState.player that')
   /\ player.y (GameplayState.player this')
      = game.groundY (GameplayState.game this') - player.height (GameplayState.player this'))
  /\ (player.velocityX (GameplayState.player this') = player.velocityX (GameplayState.player this)
      /\ player.velocityY (GameplayState.player this')
         = player.velocityY (GameplayState.player this)
      /\ player.onGround (GameplayState.player this') = player.onGround (GameplayState.player this)
      /\ player.color (GameplayState.player this') = player.color (GameplayState.player this)
      /\ game.keys (GameplayState.game this') = game.keys (GameplayState.game this)
      /\ GameplayState.sprites this' = GameplayState.sprites this).
Proof.
  intros E. cbn. unfold tunables. cbn. rewrite E. repeat split.
Qed.

(** X6.  Without a parent element, or with one whose clientWidth is 0 (or
    NaN), the constructor lays the game out for 800 pixels: on a host that
    hands 800 and 400 back as they are, the screen is that of the 800 x 400
    layout, the player on the ground line at x = 100 with onGround still
    false, no key held, no sprites. *)
Theorem X6_default_width c :
  canvas.context2d c = true ->
  match canvas.parentClientWidth c with
  | None => True
  | Some clientWidth => (clientWidth =? 0) || is_nan clientWidth = true
  end ->
  unsignedLong 800 = 800 -> unsignedLong 400 = 400 ->
  GameplayState.new unsignedLong c
  = Some (GameplayState.mk (canvas.mk 800 400 true (canvas.parentClientWidth c))
            (game800 ∅) (player.mk 100 328 24 32 0 0 4 12 false "#FF6B6B") None).
Proof.
  intros Hc Hp H800 H400.
  assert (Hw : orElse (default nan (canvas.parentClientWidth c)) 800 = 800).
  { destruct (canvas.parentClientWidth c) as [v|]; [|reflexivity].
    cbn. unfold orElse. now rewrite Hp. }
  unfold GameplayState.new, GameplayState.resizeCanvas. rewrite Hc.
  cbn [GameplayState.canvas GameplayState.game GameplayState.player
       GameplayState.sprites canvas.parentClientWidth canvas.context2d].
  rewrite Hw, Hc.
  change (800 / (800 / 400)) with 400. rewrite H800, H400.
  vm_compute. reflexivity.
Qed.

End Resizing.

Lemma X4_resize_twice_witness :
  (fun once => player.x (GameplayState.player (GameplayState.resizeCanvas integerPart once)))
    <$> screenOfWidth 1600
  = Some 400.
Proof.
  destruct (screenOfWidth 1600) as [once|] eqn:E; [|vm_compute in E; discriminate].
  change (Some (player.x (GameplayState.player (GameplayState.resizeCanvas integerPart once)))
          = Some 400).
  f_equal.
  destruct (X4_resize_twice integerPart once) as (_ & _ & _ & _ & ->).
  vm_compute in E. injection E as <-. reflexivity.
Defined.

Lemma X5_resize_layout_witness :
  let this := GameplayState.mk (canvas.mk 300 150 true (Some 1000)) (game800 ∅) standing None in
  let that := GameplayState.mk (canvas.mk 800 400 true (Some 1000))
                (game800 (keysHeld ["Space"]))
                (player.mk 5 17 24 32 1 (-3) 4 12 false "#FF6B6B") None in
  tunables (GameplayState.resizeCanvas integerPart this)
  = tunables (GameplayState.resizeCanvas integerPart that)
  /\ player.y (GameplayState.player (GameplayState.resizeCanvas integerPart that)) = 410
  /\ player.velocityY (GameplayState.player (GameplayState.resizeCanvas integerPart that)) = -3.
Proof.
  cbn zeta.
  destruct (X5_resize_layout integerPart
              (GameplayState.mk (canvas.mk 300 150 true (Some 1000)) (game800 ∅) standing None)
              (GameplayState.mk (canvas.mk 800 400 true (Some 1000))
                 (game800 (keysHeld ["Space"]))
                 (player.mk 5 17 24 32 1 (-3) 4 12 false "#FF6B6B") None) eq_refl)
    as ((_ & _ & Ht & _) & _).
  split; [exact Ht|]. split; reflexivity.
Defined.

Lemma X6_default_width_witness :
  GameplayState.new integerPart (canvas.mk 300 150 true None)
  = Some (GameplayState.mk (canvas.mk 800 400 true None)
            (game800 ∅) (player.mk 100 328 24 32 0 0 4 12 false "#FF6B6B") None)
  /\ GameplayState.new integerPart (canvas.mk 300 150 true (Some 0))
     = Some (GameplayState.mk (canvas.mk 800 400 true (Some 0))
               (game800 ∅) (player.mk 100 328 24 32 0 0 4 12 false "#FF6B6B") None).
Proof.
  split.
  - apply (X6_default_width integerPart (canvas.mk 300 150 true None)); reflexivity || exact I.
  - apply (X6_default_width integerPart (canvas.mk 300 150 true (Some 0))); reflexivity.
Defined.

(** * Further properties: the page and its clicks *)

Section PageFacts.
Context {W : Type}.
Variable unsignedLong : float -> float.
Variable loaded : bool.
Implicit Types (page : Page.t W) (e : click.t).

Lemma menu_onClick e (this : MenuState.t) (stateManager : StateManager.t W) (w : W) :
  MenuState.onClick e this stateManager w
  = if hits e (MenuState.buttonRect this)
    then StateManager.setState GAMEPLAY stateManager w
    else (stateManager, w).
Proof. reflexivity. Qed.

Lemma pause_onClick e (this : PauseState.t) (stateManager : StateManager.t W) (w : W) ls :
  PauseState.onClick e this stateManager w ls
  = if hits e (PauseState.resume (PauseState.buttons this))
    then (StateManager.setState GAMEPLAY stateManager w, ls)
    else if hits e (PauseState.save (PauseState.buttons this))
    then (stateManager, w, PauseState.saveGame ls)
    else if hits e (PauseState.quit (PauseState.buttons this))
    then (StateManager.setState MENU stateManager w, ls)
    else (stateManager, w, ls).
Proof. reflexivity. Qed.

(** [setState], as a triple of what it leaves. *)
Lemma setState_eq s (this : StateManager.t W) (w : W) :
  StateManager.setState s this w
  = (StateManager.mk s (StateManager.onStateChange this),
     notify (StateManager.onStateChange this) s w).
Proof. unfold StateManager.setState; cbn. now destruct (StateManager.onStateChange this). Qed.

Lemma click_state page e :
  stateOf (Page.onClick e page)
  = (if hits e (PauseState.resume (PauseState.buttons (Page.pauseState page))) then GAMEPLAY
     else if negb (hits e (PauseState.save (PauseState.buttons (Page.pauseState page))))
             && hits e (PauseState.quit (PauseState.buttons (Page.pauseState page)))
     then MENU
     else if hits e (MenuState.buttonRect (Page.menuState page)) then GAMEPLAY
     else stateOf page).
Proof.
  unfold Page.onClick, stateOf. rewrite menu_onClick.
  destruct (hits e (MenuState.buttonRect _)); rewrite ?setState_eq, pause_onClick;
    destruct (hits e (PauseState.resume _)); rewrite ?setState_eq; cbn;
    try reflexivity;
    destruct (hits e (PauseState.save _)); cbn; try reflexivity;
    destruct (hits e (PauseState.quit _)); rewrite ?setState_eq; reflexivity.
Qed.

Lemma click_screen page e : screenOf (Page.onClick e page) = screenOf page.
Proof.
  unfold Page.onClick, screenOf.
  destruct (MenuState.onClick e _ _ _) as [stateManager w].
  now destruct (PauseState.onClick e _ _ _ _) as [[? ?] ?].
Qed.

Lemma click_requested page e :
  App.frameRequested (Page.app (Page.onClick e page)) = App.frameRequested (Page.app page).
Proof.
  unfold Page.onClick.
  destruct (MenuState.onClick e _ _ _) as [stateManager w].
  now destruct (PauseState.onClick e _ _ _ _) as [[? ?] ?].
Qed.

(** X7.  What a click does, whatever the current state (no listener looks at
    it, both are always attached).  The pause screen's listener runs last,
    so its verdict stands: a hit on Resume ends in Gameplay, and otherwise a
    hit on Quit, if Save is not hit, ends in Menu; short of these a hit on
    the menu's Start button ends in Gameplay, and any other click leaves the
    state.  Save writes the empty record, when Resume is not hit.  No click
    touches the gameplay screen, the rectangles or the observer slot, and the
    observer is told of every [setState] made, the menu's first. *)
Theorem X7_click page e :
  let start := hits e (MenuState.buttonRect (Page.menuState page)) in
  let resume := hits e (PauseState.resume (PauseState.buttons (Page.pauseState page))) in
  let save := hits e (PauseState.save (PauseState.buttons (Page.pauseState page))) in
  let quit := hits e (PauseState.quit (PauseState.buttons (Page.pauseState page))) in
  let page' := Page.onClick e page in
  stateOf page'
  = (if resume then GAMEPLAY
     else if negb save && quit then MENU
     else if start then GAMEPLAY else stateOf page)
  /\ Page.localStorage page'
     = (if negb resume && save then <["gameState" := "{}"]> (Page.localStorage page)
        else Page.localStorage page)
  /\ App.world (Page.app page')
     = (let w := App.world (Page.app page) in
        let w := if start then notify (slotOf page) GAMEPLAY w else w in
        if resume then notify (slotOf page) GAMEPLAY w
        else if negb save && quit then notify (slotOf page) MENU w else w)
  /\ screenOf page' = screenOf page
  /\ slotOf page' = slotOf page
  /\ Page.menuState page' = Page.menuState page
  /\ Page.pauseState page' = Page.pauseState page.
Proof.
  cbn zeta. unfold Page.onClick, stateOf, slotOf, screenOf.
  rewrite menu_onClick.
  destruct (hits e (MenuState.buttonRect _)); rewrite ?setState_eq, pause_onClick;
    destruct (hits e (PauseState.resume _)); rewrite ?setState_eq; cbn;
    try (now repeat split);
    destruct (hits e (PauseState.save _)); cbn; try (now repeat split);
    destruct (hits e (PauseState.quit _)); rewrite ?setState_eq; cbn; now repeat split.
Qed.

Lemma update_manager now this (stateManager : StateManager.t W) (w : W) :
  (GameplayState.update now this stateManager w).1.2
  = if held (game.keys (GameplayState.game this)) "Escape"
    then StateManager.mk PAUSE (StateManager.onStateChange stateManager)
    else stateManager.
Proof.
  unfold GameplayState.update. destruct (held _ "Escape"); [|reflexivity].
  now rewrite setState_eq.
Qed.

Lemma withSprites_screen this :
  GameplayState.canvas (withSprites this) = GameplayState.canvas this
  /\ GameplayState.game (withSprites this) = GameplayState.game this
  /\ GameplayState.player (withSprites this) = GameplayState.player this.
Proof. unfold withSprites. now destruct (GameplayState.sprites this). Qed.

(** The call of [gameLoop], state by state. *)
Lemma gameLoop_idle now (app : App.t W) :
  StateManager.getCurrentState (App.stateManager app) <> GAMEPLAY ->
  App.gameLoop loaded now app = App.requestAnimationFrame app.
Proof. unfold App.gameLoop. now destruct (StateManager.getCurrentState _). Qed.

Lemma gameLoop_gameplay now (app : App.t W) :
  StateManager.getCurrentState (App.stateManager app) = GAMEPLAY ->
  App.gameLoop loaded now app
  = if entered loaded (App.gameplayState app)
    then
      let after := GameplayState.update now (withSprites (App.gameplayState app))
                     (App.stateManager app) (App.world app) in
      App.mk after.1.2 after.1.1 after.2 true
    else App.mk (App.stateManager app) (App.gameplayState app) (App.world app) false.
Proof.
  intros Hs. unfold App.gameLoop, entered, withSprites, GameplayState.enter. rewrite Hs.
  destruct (GameplayState.sprites (App.gameplayState app)); [|destruct loaded];
    cbn zeta iota; try reflexivity;
    now destruct (GameplayState.update now _ _ _) as [[? ?] ?].
Qed.

Lemma requested_same (app : App.t W) :
  App.frameRequested app = true -> App.requestAnimationFrame app = app.
Proof. destruct app; cbn. now intros ->. Qed.

Lemma gameLoop_state now (app : App.t W) :
  StateManager.getCurrentState (App.stateManager (App.gameLoop loaded now app))
  = match StateManager.getCurrentState (App.stateManager app) with
    | GAMEPLAY =>
        if entered loaded (App.gameplayState app)
           && held (game.keys (GameplayState.game (App.gameplayState app))) "Escape"
        then PAUSE else GAMEPLAY
    | s => s
    end.
Proof.
  destruct (StateManager.getCurrentState (App.stateManager app)) eqn:Hs;
    try (rewrite gameLoop_idle by congruence; exact Hs).
  rewrite (gameLoop_gameplay now app Hs).
  destruct (entered loaded _); [|exact Hs]. cbn.
  rewrite update_manager. destruct (withSprites_screen (App.gameplayState app)) as (_ & -> & _).
  now destruct (held _ "Escape").
Qed.

Lemma page_gameLoop_app now page :
  Page.app (Page.gameLoop loaded now page) = App.gameLoop loaded now (Page.app page).
Proof. unfold Page.gameLoop. now destruct (StateManager.getCurrentState _). Qed.



Lemma frame_idle now page :
  stateOf page <> GAMEPLAY ->
  Page.app (Page.handle unsignedLong loaded (Page.Frame now) page) = Page.app page.
Proof.
  intros Hs. cbn [Page.handle].
  destruct (App.frameRequested (Page.app page)) eqn:Hr; [|reflexivity].
  rewrite page_gameLoop_app, gameLoop_idle by exact Hs. now apply requested_same.
Qed.

(** X9.  Outside the state Gameplay the game stands still: however many
    frames pass in Menu or in Pause, the state manager, the gameplay screen
    (player, keys, sprites), the observer's world and the storage are what
    they were; the frames write the rectangles of the shown screen only. *)
Theorem X9_frames_outside_gameplay (nows : list (string -> float)) page :
  stateOf page <> GAMEPLAY ->
  let page' := Page.run unsignedLong loaded (map Page.Frame nows) page in
  Page.app page' = Page.app page /\ Page.localStorage page' = Page.localStorage page.
Proof.
  cbn zeta. revert page. induction nows as [|now nows IH]; intros page Hs; [now split|].
  cbn [map Page.run fold_left].
  pose proof (frame_idle now page Hs) as Ha.
  assert (Hl : Page.localStorage (Page.handle unsignedLong loaded (Page.Frame now) page)
               = Page.localStorage page).
  { cbn [Page.handle]. destruct (App.frameRequested _); [|reflexivity].
    unfold Page.gameLoop. now destruct (StateManager.getCurrentState _). }
  destruct (IH (Page.handle unsignedLong loaded (Page.Frame now) page)) as [IH1 IH2].
  - unfold stateOf. now rewrite Ha.
  - unfold Page.run in IH1, IH2. rewrite IH1, IH2. now split.
Qed.

Lemma gameLoop_untouched now page : untouched page -> untouched (Page.gameLoop loaded now page).
Proof.
  intros [Hs Hp]. split.
  - unfold stateOf in *. rewrite page_gameLoop_app, gameLoop_idle; [exact Hs|congruence].
  - unfold Page.gameLoop. unfold stateOf in Hs. now rewrite Hs.
Qed.

Lemma onMount_untouched now c w ls page :
  Page.onMount unsignedLong loaded now c w ls = Some page -> untouched page.
Proof.
  unfold Page.onMount, MenuState.new, GameplayState.new, PauseState.new.
  destruct (canvas.context2d c) eqn:Hc; [|discriminate].
  cbn [GameplayState.canvas GameplayState.resizeCanvas canvas.context2d].
  rewrite Hc. intros H. injection H as <-. apply gameLoop_untouched. now split.
Qed.

Lemma handle_untouched a page :
  isClick a = false -> untouched page -> untouched (Page.handle unsignedLong loaded a page).
Proof.
  intros Ha Hu. destruct a as [now|e|code|code|cw]; try discriminate;
    cbn [Page.handle]; try (destruct Hu; now split).
  destruct (App.frameRequested _); [now apply gameLoop_untouched|exact Hu].
Qed.

Lemma run_untouched actions page :
  forallb (fun a => negb (isClick a)) actions = true ->
  untouched page -> untouched (Page.run unsignedLong loaded actions page).
Proof.
  revert page. induction actions as [|a actions IH]; intros page Ha Hu; [exact Hu|].
  cbn in Ha. apply andb_prop in Ha as [Ha Has].
  apply (IH (Page.handle unsignedLong loaded a page) Has).
  apply handle_untouched; [now apply negb_true_iff|exact Hu].
Qed.

(** X10.  On a page just mounted, whatever frames, key events and resizes
    have passed, the first click starts the game if it falls in the 200 by 60
    corner at the top left of the canvas, wherever the Start button is drawn:
    the pause screen's listener is attached from the start, and until that
    screen is first rendered its Resume button is the rectangle
    (0, 0, 200, 60). *)
Theorem X10_corner_click_starts_game now c w ls page0 actions e :
  Page.onMount unsignedLong loaded now c w ls = Some page0 ->
  forallb (fun a => negb (isClick a)) actions = true ->
  let clickX := click.clientX e - click.left e in
  let clickY := click.clientY e - click.top e in
  (0 <=? clickX) = true -> (clickX <=? 200) = true ->
  (0 <=? clickY) = true -> (clickY <=? 60) = true ->
  let page := Page.run unsignedLong loaded actions page0 in
  stateOf page = MENU
  /\ stateOf (Page.handle unsignedLong loaded (Page.Click e) page) = GAMEPLAY.
Proof.
  intros Hm Ha clickX clickY H1 H2 H3 H4 page.
  destruct (run_untouched actions page0 Ha (onMount_untouched _ _ _ _ _ Hm)) as [Hs Hp].
  fold page in Hs, Hp. split; [exact Hs|].
  cbn [Page.handle]. rewrite click_state, Hp.
  cbn [PauseState.buttons PauseState.resume].
  replace (hits e (rect.mk 0 0 200 60)) with true; [reflexivity|].
  unfold hits, isClickInButton. cbn [rect.x rect.y rect.width rect.height].
  fold clickX clickY. change (0 + 200) with 200. change (0 + 60) with 60.
  now rewrite H1, H2, H3, H4.
Qed.

(** X11.  Escape that is still held undoes Resume.  Whatever the state, a
    click on the pause screen's Resume button sets Gameplay.  With Escape
    held in the shared key map, the next frame, if it gets to [update] (the
    sprites are there, or are loaded now), runs one tick of the physics and
    sets Pause again.  If it does not (there are no sprites and the images
    fail to load), the state stays Gameplay, the screen is as it was, and no
    further frame is requested. *)
Theorem X11_escape_held_repauses now page e :
  held (game.keys (GameplayState.game (screenOf page))) "Escape" = true ->
  hits e (PauseState.resume (PauseState.buttons (Page.pauseState page))) = true ->
  App.frameRequested (Page.app page) = true ->
  let resumed := Page.handle unsignedLong loaded (Page.Click e) page in
  let next := Page.handle unsignedLong loaded (Page.Frame now) resumed in
  stateOf resumed = GAMEPLAY
  /\ (entered loaded (screenOf page) = true ->
      stateOf next = PAUSE
      /\ GameplayState.player (screenOf next)
         = GameplayState.physics (GameplayState.game (screenOf page))
             (GameplayState.player (screenOf page))
      /\ App.frameRequested (Page.app next) = true)
  /\ (entered loaded (screenOf page) = false ->
      stateOf next = GAMEPLAY /\ screenOf next = screenOf page
      /\ App.frameRequested (Page.app next) = false).
Proof.
  intros He Hr Hf resumed next.
  assert (Hs : stateOf resumed = GAMEPLAY).
  { subst resumed. cbn [Page.handle]. now rewrite click_state, Hr. }
  assert (Hg : screenOf resumed = screenOf page) by apply click_screen.
  assert (Hq : App.frameRequested (Page.app resumed) = true).
  { subst resumed. cbn [Page.handle]. now rewrite click_requested. }
  assert (Hn : Page.app next = App.gameLoop loaded now (Page.app resumed)).
  { subst next. cbn [Page.handle]. rewrite Hq. apply page_gameLoop_app. }
  split; [exact Hs|].
  unfold stateOf, screenOf in *. rewrite Hn, (gameLoop_gameplay now _ Hs), Hg.
  split; intros ->.
  - cbn. rewrite update_manager, update_screen.
    destruct (withSprites_screen (App.gameplayState (Page.app page))) as (_ & -> & ->).
    rewrite He. now repeat split.
  - cbn. now rewrite <- Hg.
Qed.

(** Why a frame can be taken as one step, though its call of [gameLoop]
    waits for the images when the screen has no sprites yet.  Up to the wait
    the call has only read the state, Gameplay.  On a page that was mounted,
    nothing leaves Gameplay during the wait: no frame runs, key events and
    resizes do not touch the state, and a click can only set Gameplay again,
    because the pause screen's Quit button is still the rectangle of its
    Resume button, which is tested first.  So the call finds, after the wait,
    the state that it read before it, and what arrived in between can be
    taken before the call. *)
Lemma handle_neverPaused a page :
  neverPaused page -> neverPaused (Page.handle unsignedLong loaded a page).
Proof.
  intros Hp. destruct a as [now|e|code|code|cw]; cbn [Page.handle];
    try (intros Hn; destruct (Hp Hn) as [H1 H2]; now split).
  - destruct (App.frameRequested (Page.app page)); [|exact Hp].
    intros Hn. unfold screenOf in Hn. rewrite page_gameLoop_app in Hn.
    destruct (stateOf page) eqn:Hs; unfold stateOf in Hs.
    + rewrite gameLoop_idle in Hn by congruence. destruct (Hp Hn) as [H1 H2].
      split; [|unfold Page.gameLoop; now rewrite Hs].
      unfold stateOf. rewrite page_gameLoop_app, gameLoop_state, Hs. discriminate.
    + rewrite (gameLoop_gameplay now _ Hs) in Hn.
      destruct (entered loaded (App.gameplayState (Page.app page))) eqn:He.
      * cbn in Hn. rewrite update_screen in Hn. cbn in Hn. unfold withSprites in Hn.
        destruct (GameplayState.sprites (App.gameplayState (Page.app page))) eqn:Es;
          cbn in Hn; rewrite ?Es in Hn; discriminate.
      * destruct (Hp Hn) as [H1 H2].
        split; [|unfold Page.gameLoop; now rewrite Hs].
        unfold stateOf. rewrite page_gameLoop_app, gameLoop_state, Hs, He. discriminate.
    + rewrite gameLoop_idle in Hn by congruence. destruct (Hp Hn) as [H1 H2].
      unfold stateOf in H1. congruence.
  - intros Hn. rewrite click_screen in Hn. destruct (Hp Hn) as [H1 H2].
    split; [|unfold Page.onClick; destruct (MenuState.onClick e _ _ _);
             now destruct (PauseState.onClick e _ _ _ _) as [[? ?] ?]].
    rewrite click_state, H2. cbn [PauseState.buttons PauseState.resume PauseState.save
                                    PauseState.quit].
    destruct (hits e (rect.mk 0 0 200 60)); [discriminate|]. cbn.
    destruct (hits e (MenuState.buttonRect _)); [discriminate|exact H1].
Qed.

Lemma run_neverPaused now c w ls page0 actions :
  Page.onMount unsignedLong loaded now c w ls = Some page0 ->
  neverPaused (Page.run unsignedLong loaded actions page0).
Proof.
  intros Hm.
  assert (H0 : neverPaused page0).
  { destruct (onMount_untouched _ _ _ _ _ Hm) as [Hs Hp]. intros _. split; congruence. }
  clear Hm. revert page0 H0. induction actions as [|a actions IH]; intros page0 H0; [exact H0|].
  apply (IH (Page.handle unsignedLong loaded a page0)). now apply handle_neverPaused.
Qed.

Lemma wait_in_gameplay a page :
  neverPaused page -> GameplayState.sprites (screenOf page) = None ->
  stateOf page = GAMEPLAY -> isFrame a = false ->
  stateOf (Page.handle unsignedLong loaded a page) = GAMEPLAY
  /\ GameplayState.sprites (screenOf (Page.handle unsignedLong loaded a page)) = None.
Proof.
  intros Hp Hn Hs Ha. destruct (Hp Hn) as [_ H2].
  destruct a as [now|e|code|code|cw]; try discriminate; cbn [Page.handle];
    try (split; [exact Hs|exact Hn]).
  rewrite click_screen. split; [|exact Hn].
  rewrite click_state, H2. cbn [PauseState.buttons PauseState.resume PauseState.save
                                  PauseState.quit].
  destruct (hits e (rect.mk 0 0 200 60)); [reflexivity|]. cbn.
  now destruct (hits e (MenuState.buttonRect _)).
Qed.

End PageFacts.

(** The page of an 800 pixel wide container, step by step.  When mounting
    returns, the menu has been rendered: the Start button is at
    (300, 170, 200, 60).  Once paused, the pause
    screen's buttons are 192 by 40 at x = 304 and y = 162.5, 222.5, 282.5.
    Then: a click on Save near its top edge, which the Start button's
    rectangle covers too, writes the record and resumes the game; and, in
    Gameplay, a click where Quit was drawn goes to Menu. *)
Example page_walkthrough :
  (fun page =>
     let saved := Page.handle integerPart true (Page.Click (clickAt 400 225)) page in
     let resumed :=
       Page.run integerPart true
         [Page.Released "Escape"; Page.Click (clickAt 400 180); Page.Frame noClock] page in
     let quit := Page.handle integerPart true (Page.Click (clickAt 400 300)) resumed in
     (stateOf page, App.world (Page.app page),
      (stateOf saved, Page.localStorage saved !! "gameState"),
      (stateOf resumed, stateOf quit, App.world (Page.app quit))))
  <$> paused800
  = Some (PAUSE, [GAMEPLAY; PAUSE],
          (GAMEPLAY, Some "{}"),
          (GAMEPLAY, MENU, [GAMEPLAY; PAUSE; GAMEPLAY; GAMEPLAY; MENU]))
  /\ (MenuState.buttonRect ∘ Page.menuState) <$> page800 true = Some (rect.mk 300 170 200 60).
Proof. vm_compute. split; reflexivity. Qed.

(** When the images fail to load, the game never starts: the frame after the
    click on Start stops the loop, in Gameplay, and Escape or further frames
    change nothing. *)
Example images_fail :
  (fun page =>
     let stuck :=
       Page.run integerPart false [Page.Click (clickAt 400 200); Page.Frame noClock] page in
     let later :=
       Page.run integerPart false
         [Page.Pressed "Escape"; Page.Frame noClock; Page.Frame noClock] stuck in
     (stateOf stuck, App.frameRequested (Page.app stuck),
      GameplayState.sprites (screenOf stuck), stateOf later,
      vertical (GameplayState.player (screenOf later))))
  <$> page800 false
  = Some (GAMEPLAY, false, None, GAMEPLAY, (328, 0, false)).
Proof. vm_compute. reflexivity. Qed.


Lemma X9_frames_outside_gameplay_witness :
  match paused800 with
  | Some page =>
      stateOf page <> GAMEPLAY
      /\ Page.app (Page.run integerPart true (map Page.Frame [noClock; noClock; noClock]) page)
         = Page.app page
  | None => False
  end.
Proof.
  destruct paused800 as [page|] eqn:E; [|vm_compute in E; discriminate].
  assert (H : stateOf page <> GAMEPLAY).
  { vm_compute in E. injection E as <-. vm_compute. discriminate. }
  split; [exact H|].
  apply (X9_frames_outside_gameplay integerPart true [noClock; noClock; noClock] page H).
Defined.

Lemma X10_corner_click_starts_game_witness :
  match Page.onMount integerPart true noClock (canvas.mk 300 150 true (Some 800)) tt ∅ with
  | Some page0 =>
      let actions := [Page.Frame noClock; Page.Pressed "KeyD"; Page.Resized 1000;
                      Page.Frame noClock] in
      stateOf (Page.handle integerPart true (Page.Click (clickAt 50 30))
                 (Page.run integerPart true actions page0)) = GAMEPLAY
  | None => False
  end.
Proof.
  destruct (Page.onMount integerPart true noClock _ tt ∅) as [page0|] eqn:E;
    [|vm_compute in E; discriminate].
  apply (X10_corner_click_starts_game integerPart true noClock _ _ _ page0
           [Page.Frame noClock; Page.Pressed "KeyD"; Page.Resized 1000; Page.Frame noClock]
           (clickAt 50 30) E); reflexivity.
Defined.

Lemma X11_escape_held_repauses_witness :
  match paused800 with
  | Some page =>
      let resumed := Page.handle integerPart true (Page.Click (clickAt 400 180)) page in
      let next := Page.handle integerPart true (Page.Frame noClock) resumed in
      stateOf page = PAUSE /\ stateOf resumed = GAMEPLAY /\ stateOf next = PAUSE
  | None => False
  end.
Proof.
  destruct paused800 as [page|] eqn:E; [|vm_compute in E; discriminate].
  vm_compute in E. injection E as <-.
  split; [reflexivity|].
  match goal with
  | |- stateOf (Page.handle _ _ _ ?page) = _ /\ _ =>
      destruct (X11_escape_held_repauses integerPart true noClock page (clickAt 400 180))
        as (H1 & H2 & _); [reflexivity|reflexivity|reflexivity|]
  end.
  split; [exact H1|]. now apply H2.
Defined.

(** * Further properties: the key map *)

Section Keys.
Context {W : Type}.
Variable unsignedLong : float -> float.
Variable loaded : bool.

Lemma gameLoop_game now (app : App.t W) :
  GameplayState.game (App.gameplayState (App.gameLoop loaded now app))
  = GameplayState.game (App.gameplayState app).
Proof.
  destruct (StateManager.getCurrentState (App.stateManager app)) eqn:Hs;
    try (rewrite gameLoop_idle by congruence; reflexivity).
  rewrite (gameLoop_gameplay loaded now app Hs).
  destruct (entered loaded _); [|reflexivity]. cbn. rewrite update_screen. cbn.
  now destruct (withSprites_screen (App.gameplayState app)) as (_ & -> & _).
Qed.

(** X12.  A key is held from its keydown to its keyup and nothing else
    releases it: a frame, a click, a resize, and the keydown or keyup of
    another key leave every key as it was, in whatever state the page is.  So
    a key that is down when the screen changes is still down on the new
    screen. *)
Theorem X12_keys_follow_events a (page : Page.t W) code :
  held (game.keys (GameplayState.game (screenOf (Page.handle unsignedLong loaded a page)))) code
  = match a with
    | Page.Pressed c =>
        if decide (c = code) then true
        else held (game.keys (GameplayState.game (screenOf page))) code
    | Page.Released c =>
        if decide (c = code) then false
        else held (game.keys (GameplayState.game (screenOf page))) code
    | _ => held (game.keys (GameplayState.game (screenOf page))) code
    end.
Proof.
  destruct a as [now|e|c|c|cw]; cbn [Page.handle].
  - destruct (App.frameRequested _); [|reflexivity].
    unfold screenOf. now rewrite page_gameLoop_app, gameLoop_game.
  - now rewrite click_screen.
  - cbn. unfold held. rewrite lookup_insert. now destruct (decide (c = code)).
  - cbn. unfold held. rewrite lookup_insert. now destruct (decide (c = code)).
  - reflexivity.
Qed.

End Keys.

(** Escape pressed in Gameplay and never released is still held in Pause, in
    Menu after Quit, and in Gameplay again after Start. *)
Example escape_stays_held :
  (fun page =>
     let later :=
       Page.run integerPart true
         [Page.Click (clickAt 400 300); Page.Frame noClock; Page.Click (clickAt 400 200)] page in
     (stateOf page, held (game.keys (GameplayState.game (screenOf page))) "Escape",
      stateOf later, held (game.keys (GameplayState.game (screenOf later))) "Escape"))
  <$> paused800
  = Some (PAUSE, true, GAMEPLAY, true).
Proof. vm_compute. reflexivity. Qed.

(** * Further properties: sprites *)

Section Sprites.

Lemma Sprite_apply_frame c sprite :
  (Sprite.currentFrame sprite < N.max 1 (Sprite.totalFrames sprite))%N ->
  (Sprite.currentFrame (Sprite.apply c sprite)
   < N.max 1 (Sprite.totalFrames (Sprite.apply c sprite)))%N
  /\ Sprite.totalFrames (Sprite.apply c sprite) = Sprite.totalFrames sprite
  /\ Sprite.frameWidth (Sprite.apply c sprite) = Sprite.frameWidth sprite
  /\ Sprite.frameHeight (Sprite.apply c sprite) = Sprite.frameHeight sprite.
Proof.
  intros H. destruct c as [currentTime| |speed]; cbn [Sprite.apply].
  - unfold Sprite.update. destruct (N.leb_spec (Sprite.totalFrames sprite) 1); [easy|].
    destruct (_ <=? _); [|easy]. cbn. split; [|easy].
    pose proof (N.mod_lt (Sprite.currentFrame sprite + 1) (Sprite.totalFrames sprite)).
    lia.
  - cbn. split; [lia|easy].
  - easy.
Qed.

(** X13.  The frame of a sprite is always a frame of its sheet.  Whatever
    calls of [update] (at whatever times), [resetAnimation] and
    [setAnimationSpeed] a sprite has had since its construction, its current
    frame is below its number of frames (it is 0 when that number is 0 or 1),
    and the number of frames and the frame size are those it was built
    with. *)
Theorem X13_frame_in_range frameWidth frameHeight totalFrames animationSpeed calls :
  let sprite :=
    Sprite.run calls (Sprite.new frameWidth frameHeight totalFrames animationSpeed) in
  (Sprite.currentFrame sprite < N.max 1 (Sprite.totalFrames sprite))%N
  /\ Sprite.totalFrames sprite = default 1%N totalFrames
  /\ Sprite.frameWidth sprite = frameWidth
  /\ Sprite.frameHeight sprite = frameHeight.
Proof.
  cbn zeta.
  set (P sprite := (Sprite.currentFrame sprite < N.max 1 (Sprite.totalFrames sprite))%N
                   /\ Sprite.totalFrames sprite = default 1%N totalFrames
                   /\ Sprite.frameWidth sprite = frameWidth
                   /\ Sprite.frameHeight sprite = frameHeight).
  assert (H0 : P (Sprite.new frameWidth frameHeight totalFrames animationSpeed)).
  { subst P. cbn. repeat split. lia. }
  revert H0. generalize (Sprite.new frameWidth frameHeight totalFrames animationSpeed).
  induction calls as [|c calls IH]; intros sprite H; [exact H|].
  apply (IH (Sprite.apply c sprite)).
  destruct H as (H1 & H2 & H3 & H4).
  destruct (Sprite_apply_frame c sprite H1) as (G1 & G2 & G3 & G4).
  subst P. cbn beta. rewrite G2, G3, G4. now repeat split; try congruence.
Qed.

(** A walk sheet of four frames at 150 ms a frame: one frame forward for
    each call that comes 150 ms or more after the last step, however late
    (no catching up), and round to frame 0 after frame 3. *)
Example four_frames :
  map (fun calls => Sprite.currentFrame (Sprite.run calls (Sprite.new 16 16 (Some 4%N) (Some 150))))
      [[Sprite.Update 100]; [Sprite.Update 150]; [Sprite.Update 1000];
       [Sprite.Update 150; Sprite.Update 299; Sprite.Update 300];
       [Sprite.Update 150; Sprite.Update 300; Sprite.Update 450; Sprite.Update 600]]
  = [0; 1; 1; 2; 0]%N.
Proof. vm_compute. reflexivity. Qed.

(** X14.  Sprites of one frame (or none) never animate: a map of such
    sprites comes out of the sprite pass of [update] as it went in, whatever
    the clock says.  The five sprites of [initializeSprites] are of this
    kind, so a tick leaves the loaded sprites of the game as they are. *)
Theorem X14_still_sprites now (m : gmap string Sprite.t) :
  map_Forall (fun _ sprite => (Sprite.totalFrames sprite <= 1)%N) m ->
  GameplayState.updateSprites now (Some m) = Some m.
Proof.
  intros H. unfold GameplayState.updateSprites. f_equal.
  apply map_eq. intros id. rewrite map_lookup_imap.
  destruct (m !! id) as [sprite|] eqn:E; [|reflexivity]. cbn.
  unfold Sprite.update. specialize (H id sprite E). cbn in H.
  now destruct (N.leb_spec (Sprite.totalFrames sprite) 1); [|lia].
Qed.

Lemma X14_still_sprites_witness :
  map_Forall (fun _ sprite => (Sprite.totalFrames sprite <= 1)%N) initializeSprites
  /\ GameplayState.updateSprites (fun _ => 1000) (Some initializeSprites)
     = Some initializeSprites.
Proof.
  assert (H : map_Forall (fun _ sprite => (Sprite.totalFrames sprite <= 1)%N)
                initializeSprites).
  { unfold initializeSprites. repeat apply map_Forall_insert_2; try (cbn; lia).
    apply map_Forall_empty. }
  split; [exact H|]. exact (X14_still_sprites (fun _ => 1000) initializeSprites H).
Defined.

End Sprites.

(** * Further properties: the sprite loader *)

Section Loader.
Implicit Types (this : SpriteLoader.t) (id url : string) (n : nat).

Lemma new_consistent : SpriteLoader.consistent SpriteLoader.new.
Proof.
  unfold SpriteLoader.consistent, SpriteLoader.new. cbn. repeat split.
  - intros H. now rewrite lookup_empty in H.
  - intros [img H]. now rewrite lookup_empty in H.
  - now rewrite lookup_empty in H.
  - now rewrite lookup_empty in H.
Qed.

Lemma load_consistent id url this :
  SpriteLoader.consistent this -> SpriteLoader.consistent (SpriteLoader.load id url this).1.
Proof.
  intros Hthis. pose proof Hthis as (H1 & H2 & H3). unfold SpriteLoader.load.
  destruct (SpriteLoader.cache this !! id) as [img|] eqn:Ec; [exact Hthis|].
  destruct (SpriteLoader.loading this !! id) as [m|] eqn:El; [exact Hthis|].
  clear Hthis.
  cbn. unfold SpriteLoader.consistent. cbn.
  assert (Hfresh : SpriteLoader.pending this !! SpriteLoader.images this = None).
  { destruct (SpriteLoader.pending this !! SpriteLoader.images this) as [[id' img']|] eqn:E;
      [|reflexivity].
    destruct (H3 _ _ _ E). lia. }
  split; [|split].
  - intros id' n'. destruct (decide (id = id')) as [<-|Hne].
    + rewrite lookup_insert_eq. split.
      * intros [= <-]. eexists. now rewrite lookup_insert_eq.
      * intros [img' H]. destruct (decide (SpriteLoader.images this = n')) as [<-|Hn];
          [reflexivity|].
        rewrite lookup_insert_ne in H by exact Hn.
        assert (SpriteLoader.loading this !! id = Some n') by (apply H1; eauto).
        congruence.
    + rewrite lookup_insert_ne by exact Hne. rewrite H1.
      split; intros [img' H]; exists img'.
      * rewrite lookup_insert_ne; [exact H|]. intros <-. congruence.
      * destruct (decide (SpriteLoader.images this = n')) as [<-|Hn].
        -- rewrite lookup_insert_eq in H. congruence.
        -- now rewrite lookup_insert_ne in H.
  - intros id' Hc. destruct (decide (id = id')) as [<-|Hne].
    + rewrite Ec in Hc. now destruct Hc.
    + rewrite lookup_insert_ne by exact Hne. now apply H2.
  - intros n' id' img' H. destruct (decide (SpriteLoader.images this = n')) as [<-|Hn].
    + rewrite lookup_insert_eq in H. injection H as <- <-. cbn. lia.
    + rewrite lookup_insert_ne in H by exact Hn. destruct (H3 _ _ _ H). lia.
Qed.

(** What the two handlers have in common: the image leaves the pending ones
    and its id is no longer loading. *)
Lemma settle_consistent this n id img cache' :
  SpriteLoader.consistent this ->
  SpriteLoader.pending this !! n = Some (id, img) ->
  (forall id', id' <> id -> cache' !! id' = SpriteLoader.cache this !! id') ->
  SpriteLoader.consistent
    (SpriteLoader.mk cache' (delete id (SpriteLoader.loading this))
       (delete n (SpriteLoader.pending this)) (SpriteLoader.images this)).
Proof.
  intros (H1 & H2 & H3) Hp Hc. unfold SpriteLoader.consistent. cbn.
  assert (Hl : SpriteLoader.loading this !! id = Some n) by (apply H1; eauto).
  split; [|split].
  - intros id' n'. destruct (decide (id = id')) as [<-|Hne].
    + rewrite lookup_delete_eq. split; [discriminate|].
      intros [img' H]. destruct (decide (n = n')) as [<-|Hn].
      * now rewrite lookup_delete_eq in H.
      * rewrite lookup_delete_ne in H by exact Hn.
        assert (SpriteLoader.loading this !! id = Some n') by (apply H1; eauto).
        congruence.
    + rewrite lookup_delete_ne by exact Hne. rewrite H1.
      split; intros [img' H]; exists img'.
      * rewrite lookup_delete_ne; [exact H|]. intros <-. congruence.
      * destruct (decide (n = n')) as [<-|Hn].
        -- now rewrite lookup_delete_eq in H.
        -- now rewrite lookup_delete_ne in H.
  - intros id' Hs. destruct (decide (id = id')) as [<-|Hne].
    + apply lookup_delete_eq.
    + rewrite lookup_delete_ne by exact Hne. apply H2. rewrite <- Hc; [exact Hs|congruence].
  - intros n' id' img' H. destruct (decide (n = n')) as [<-|Hn].
    + now rewrite lookup_delete_eq in H.
    + rewrite lookup_delete_ne in H by exact Hn. eauto.
Qed.

Lemma onload_consistent n this :
  SpriteLoader.consistent this -> SpriteLoader.consistent (SpriteLoader.onload n this).
Proof.
  intros H. unfold SpriteLoader.onload.
  destruct (SpriteLoader.pending this !! n) as [[id img]|] eqn:E; [|exact H].
  apply (settle_consistent this n id img); [exact H|exact E|].
  intros id' Hne. now rewrite lookup_insert_ne.
Qed.

Lemma onerror_consistent n this :
  SpriteLoader.consistent this -> SpriteLoader.consistent (SpriteLoader.onerror n this).
Proof.
  intros H. unfold SpriteLoader.onerror.
  destruct (SpriteLoader.pending this !! n) as [[id img]|] eqn:E; [|exact H].
  now apply (settle_consistent this n id img).
Qed.

Lemma step_consistent a this :
  SpriteLoader.consistent this -> SpriteLoader.consistent (SpriteLoader.step a this).
Proof.
  destruct a; cbn [SpriteLoader.step];
    auto using load_consistent, onload_consistent, onerror_consistent.
Qed.

Lemma run_consistent actions this :
  SpriteLoader.consistent this -> SpriteLoader.consistent (SpriteLoader.run actions this).
Proof.
  revert this. induction actions as [|a actions IH]; intros this H; [exact H|].
  apply (IH (SpriteLoader.step a this)). now apply step_consistent.
Qed.

(** X15.  The loader's books are always in order.  After any calls of [load]
    and any load and error events, an id is marked loading exactly when one
    image made for it is still waiting for its event (and only one is), and
    no id is both loaded and loading. *)
Theorem X15_loader_consistent actions id :
  let this := SpriteLoader.run actions SpriteLoader.new in
  SpriteLoader.consistent this
  /\ SpriteLoader.isLoaded id this && SpriteLoader.isLoading id this = false
  /\ (forall n1 n2 img1 img2,
        SpriteLoader.pending this !! n1 = Some (id, img1) ->
        SpriteLoader.pending this !! n2 = Some (id, img2) -> n1 = n2).
Proof.
  cbn zeta. set (this := SpriteLoader.run actions SpriteLoader.new).
  assert (H : SpriteLoader.consistent this) by apply run_consistent, new_consistent.
  split; [exact H|]. destruct H as (H1 & H2 & H3). split.
  - unfold SpriteLoader.isLoaded, SpriteLoader.isLoading.
    destruct (bool_decide_reflect (is_Some (SpriteLoader.cache this !! id))) as [Hc|];
      [|reflexivity].
    rewrite (H2 id Hc). reflexivity.
  - intros n1 n2 img1 img2 P1 P2.
    assert (SpriteLoader.loading this !! id = Some n1) by (apply H1; eauto).
    assert (SpriteLoader.loading this !! id = Some n2) by (apply H1; eauto).
    congruence.
Qed.

(** X16.  One fetch for an id, and the first url wins.  A second [load] of an
    id that is loaded or still loading changes nothing and makes no image,
    even when it names another url: it hands back the cached image, or the
    promise of the fetch under way. *)
Theorem X16_load_again id url1 url2 this :
  SpriteLoader.load id url2 (SpriteLoader.load id url1 this).1 = SpriteLoader.load id url1 this.
Proof.
  unfold SpriteLoader.load.
  destruct (SpriteLoader.cache this !! id) as [img|] eqn:Ec; cbn; [now rewrite Ec|].
  destruct (SpriteLoader.loading this !! id) as [m|] eqn:El; cbn; [now rewrite Ec, El|].
  now rewrite Ec, lookup_insert_eq.
Qed.

Lemma load_cache id url this :
  SpriteLoader.cache (SpriteLoader.load id url this).1 = SpriteLoader.cache this.
Proof.
  unfold SpriteLoader.load.
  destruct (SpriteLoader.cache this !! id); [reflexivity|].
  now destruct (SpriteLoader.loading this !! id).
Qed.

Lemma step_keeps_cached a this id img :
  SpriteLoader.consistent this ->
  SpriteLoader.cache this !! id = Some img ->
  SpriteLoader.cache (SpriteLoader.step a this) !! id = Some img.
Proof.
  intros (H1 & H2 & H3) Hc. destruct a as [id' url|n|n]; cbn [SpriteLoader.step].
  - now rewrite load_cache.
  - unfold SpriteLoader.onload.
    destruct (SpriteLoader.pending this !! n) as [[id' img']|] eqn:E; [|exact Hc].
    cbn. destruct (decide (id' = id)) as [->|Hne]; [|now rewrite lookup_insert_ne].
    assert (SpriteLoader.loading this !! id = Some n) by (apply H1; eauto).
    assert (SpriteLoader.loading this !! id = None) by (apply H2; eauto).
    congruence.
  - unfold SpriteLoader.onerror.
    now destruct (SpriteLoader.pending this !! n) as [[id' img']|].
Qed.

Lemma run_keeps_cached actions this id img :
  SpriteLoader.consistent this ->
  SpriteLoader.cache this !! id = Some img ->
  SpriteLoader.cache (SpriteLoader.run actions this) !! id = Some img.
Proof.
  revert this. induction actions as [|a actions IH]; intros this H Hc; [exact Hc|].
  apply (IH (SpriteLoader.step a this)); [now apply step_consistent|].
  now apply step_keeps_cached.
Qed.

(** X17.  What is loaded stays loaded, and is the same image for good: once
    [get(id)] has answered with an image, no later [load] (of this id or
    another, with whatever url) and no later event changes its answer.  The
    loader never evicts and never reloads. *)
Theorem X17_loaded_for_good before after id img :
  let this := SpriteLoader.run before SpriteLoader.new in
  SpriteLoader.get id this = Some img ->
  SpriteLoader.get id (SpriteLoader.run after this) = Some img
  /\ (forall url, SpriteLoader.load id url (SpriteLoader.run after this)
                  = (SpriteLoader.run after this, SpriteLoader.Cached img)).
Proof.
  intros this Hg.
  assert (H : SpriteLoader.cache (SpriteLoader.run after this) !! id = Some img).
  { apply run_keeps_cached; [apply run_consistent, new_consistent|exact Hg]. }
  split; [exact H|]. intros url. unfold SpriteLoader.load. now rewrite H.
Qed.

(** X18.  A failed load is forgotten, not remembered as failed.  When the
    error event of the image fetched for [id] comes, [id] is neither loaded
    nor loading; nothing retries by itself, and the next [load] of [id] makes
    a new image and fetches again. *)
Theorem X18_failure_then_retry actions n id img url :
  let this := SpriteLoader.run actions SpriteLoader.new in
  SpriteLoader.pending this !! n = Some (id, img) ->
  let failed := SpriteLoader.onerror n this in
  let again := SpriteLoader.load id url failed in
  (SpriteLoader.get id failed = None /\ SpriteLoader.isLoading id failed = false
   /\ SpriteLoader.images failed = SpriteLoader.images this)
  /\ (again.2 = SpriteLoader.Promised (SpriteLoader.images this)
      /\ (n < SpriteLoader.images this)%nat
      /\ SpriteLoader.images again.1 = S (SpriteLoader.images this)
      /\ SpriteLoader.pending again.1 !! SpriteLoader.images this
         = Some (id, SpriteLoader.mk_image (SpriteLoader.images this) url)
      /\ SpriteLoader.isLoading id again.1 = true).
Proof.
  intros this Hp failed again.
  assert (H : SpriteLoader.consistent this) by apply run_consistent, new_consistent.
  destruct H as (H1 & H2 & H3).
  assert (Hl : SpriteLoader.loading this !! id = Some n) by (apply H1; eauto).
  assert (Hc : SpriteLoader.cache this !! id = None).
  { destruct (SpriteLoader.cache this !! id) eqn:E; [|reflexivity].
    assert (SpriteLoader.loading this !! id = None) by (apply H2; eauto). congruence. }
  assert (Hf : failed = SpriteLoader.mk (SpriteLoader.cache this)
                          (delete id (SpriteLoader.loading this))
                          (delete n (SpriteLoader.pending this)) (SpriteLoader.images this)).
  { subst failed. unfold SpriteLoader.onerror. now rewrite Hp. }
  assert (Ha : again = (SpriteLoader.mk (SpriteLoader.cache this)
                          (<[id := SpriteLoader.images this]>
                             (delete id (SpriteLoader.loading this)))
                          (<[SpriteLoader.images this
                             := (id, SpriteLoader.mk_image (SpriteLoader.images this) url)]>
                             (delete n (SpriteLoader.pending this)))
                          (S (SpriteLoader.images this)),
                        SpriteLoader.Promised (SpriteLoader.images this))).
  { subst again. rewrite Hf. unfold SpriteLoader.load. cbn.
    now rewrite Hc, lookup_delete_eq. }
  rewrite Ha, Hf. cbn. unfold SpriteLoader.get, SpriteLoader.isLoading. cbn.
  rewrite Hc, lookup_delete_eq, !lookup_insert_eq. cbn.
  destruct (H3 _ _ _ Hp) as [_ Hn]. now repeat split.
Qed.

Lemma load_keeps_loading id' url this id n :
  SpriteLoader.loading this !! id = Some n ->
  SpriteLoader.loading (SpriteLoader.load id' url this).1 !! id = Some n.
Proof.
  intros H. unfold SpriteLoader.load.
  destruct (SpriteLoader.cache this !! id'); [exact H|].
  destruct (SpriteLoader.loading this !! id') eqn:E; [exact H|].
  cbn. rewrite lookup_insert_ne; [exact H|]. intros <-. congruence.
Qed.

(** After a batch, each of its ids is loaded, or loading with its promise
    among those handed back. *)
Lemma loadBatch_known batch this :
  SpriteLoader.consistent this ->
  let r := SpriteLoader.loadBatch batch this in
  SpriteLoader.consistent r.1
  /\ SpriteLoader.cache r.1 = SpriteLoader.cache this
  /\ (forall id n, SpriteLoader.loading this !! id = Some n ->
                   SpriteLoader.loading r.1 !! id = Some n)
  /\ (forall id url, (id, url) ∈ batch ->
        is_Some (SpriteLoader.cache r.1 !! id)
        \/ exists n, SpriteLoader.loading r.1 !! id = Some n /\ SpriteLoader.Promised n ∈ r.2).
Proof.
  cbn zeta. revert this. induction batch as [|[id0 url0] batch IH]; intros this H.
  - cbn. split; [exact H|]. split; [reflexivity|]. split; [auto|].
    intros ? ? Hin. now apply elem_of_nil in Hin.
  - cbn [SpriteLoader.loadBatch].
    pose proof (load_consistent id0 url0 this H) as H0.
    pose proof (load_cache id0 url0 this) as C0.
    pose proof (load_keeps_loading id0 url0 this) as L0.
    assert (K0 : is_Some (SpriteLoader.cache this !! id0)
                 \/ exists n, SpriteLoader.loading (SpriteLoader.load id0 url0 this).1 !! id0
                              = Some n
                              /\ (SpriteLoader.load id0 url0 this).2 = SpriteLoader.Promised n).
    { unfold SpriteLoader.load.
      destruct (SpriteLoader.cache this !! id0) eqn:Ec; [left; eauto|].
      destruct (SpriteLoader.loading this !! id0) eqn:El; cbn; right; eexists;
        [split; [exact El|reflexivity]|].
      split; [apply lookup_insert_eq|reflexivity]. }
    destruct (SpriteLoader.load id0 url0 this) as [this0 h0]. cbn in H0, C0, L0, K0.
    destruct (IH this0 H0) as (I1 & I2 & I3 & I4).
    destruct (SpriteLoader.loadBatch batch this0) as [this1 hs]. cbn in I1, I2, I3, I4 |- *.
    split; [exact I1|]. split; [congruence|]. split; [auto|].
    intros id url Hin. apply elem_of_cons in Hin as [Heq|Hin].
    + injection Heq as Hid Hurl. subst id url. destruct K0 as [K0|(n & Kl & ->)]; [left; congruence|].
      right. exists n. split; [auto|]. apply elem_of_cons. now left.
    + destruct (I4 id url Hin) as [?|(n & ? & ?)]; [now left|].
      right. exists n. split; [assumption|]. apply elem_of_cons. now right.
Qed.

Lemma onloads_cached order this id n :
  SpriteLoader.consistent this ->
  SpriteLoader.loading this !! id = Some n ->
  n ∈ order ->
  is_Some (SpriteLoader.cache
             (SpriteLoader.run (map SpriteLoader.OnLoad order) this) !! id).
Proof.
  revert this. induction order as [|m order IH]; intros this H Hl Hin.
  - now apply elem_of_nil in Hin.
  - cbn [map SpriteLoader.run fold_left SpriteLoader.step].
    pose proof (onload_consistent m this H) as Hm.
    pose proof H as (H1 & H2 & H3).
    destruct (decide (m = n)) as [->|Hne].
    + destruct (proj1 (H1 id n) Hl) as [img Hp].
      exists img. apply run_keeps_cached; [exact Hm|].
      unfold SpriteLoader.onload. rewrite Hp. cbn. apply lookup_insert_eq.
    + apply (IH (SpriteLoader.onload m this) Hm).
      * unfold SpriteLoader.onload.
        destruct (SpriteLoader.pending this !! m) as [[id' img']|] eqn:E; [|exact Hl].
        cbn. rewrite lookup_delete_ne; [exact Hl|]. intros ->.
        assert (SpriteLoader.loading this !! id = Some m) by (apply H1; eauto).
        congruence.
      * apply elem_of_cons in Hin as [->|Hin]; [congruence|exact Hin].
Qed.

(** X19.  When every fetch of a batch has ended well, every id of the batch
    is there.  After [loadBatch], once the load events of the promises it
    handed back have come, in any order and among other load events,
    [get(id)] answers with an image for each id of the batch; so do the five
    [loader.get(id)!] of [initializeSprites]. *)
Theorem X19_batch_loaded before batch order :
  let this := SpriteLoader.run before SpriteLoader.new in
  let r := SpriteLoader.loadBatch batch this in
  (forall n, SpriteLoader.Promised n ∈ r.2 -> n ∈ order) ->
  forall id url, (id, url) ∈ batch ->
    is_Some (SpriteLoader.get id (SpriteLoader.run (map SpriteLoader.OnLoad order) r.1)).
Proof.
  intros this r Ho id url Hin.
  assert (H : SpriteLoader.consistent this) by apply run_consistent, new_consistent.
  destruct (loadBatch_known batch this H) as (K1 & _ & _ & K4). fold r in K1, K4.
  unfold SpriteLoader.get.
  destruct (K4 id url Hin) as [[img Hc]|(n & Hl & Hn)].
  - exists img. now apply run_keeps_cached.
  - apply (onloads_cached order r.1 id n K1 Hl). now apply Ho.
Qed.

End Loader.

Lemma X17_loaded_for_good_witness :
  let before := [SpriteLoader.Load "platform" "a.png"; SpriteLoader.OnLoad 0] in
  let after := [SpriteLoader.Load "platform" "b.png"; SpriteLoader.OnLoad 0;
                SpriteLoader.OnError 0; SpriteLoader.Load "background" "c.png"] in
  SpriteLoader.get "platform"
    (SpriteLoader.run after (SpriteLoader.run before SpriteLoader.new))
  = Some (SpriteLoader.mk_image 0 "a.png").
Proof.
  cbn zeta.
  apply (X17_loaded_for_good
           [SpriteLoader.Load "platform" "a.png"; SpriteLoader.OnLoad 0]
           [SpriteLoader.Load "platform" "b.png"; SpriteLoader.OnLoad 0;
            SpriteLoader.OnError 0; SpriteLoader.Load "background" "c.png"]
           "platform" (SpriteLoader.mk_image 0 "a.png")).
  reflexivity.
Defined.

Lemma X18_failure_then_retry_witness :
  let this := SpriteLoader.run [SpriteLoader.Load "platform" "a.png"] SpriteLoader.new in
  let failed := SpriteLoader.onerror 0 this in
  SpriteLoader.get "platform" failed = None
  /\ SpriteLoader.isLoading "platform" failed = false
  /\ (SpriteLoader.load "platform" "a.png" failed).2 = SpriteLoader.Promised 1.
Proof.
  cbn zeta.
  destruct (X18_failure_then_retry [SpriteLoader.Load "platform" "a.png"] 0 "platform"
              (SpriteLoader.mk_image 0 "a.png") "a.png" eq_refl)
    as ((H1 & H2 & _) & (H3 & _)).
  split; [exact H1|]. split; [exact H2|exact H3].
Defined.

Lemma X19_batch_loaded_witness :
  let r := SpriteLoader.loadBatch placeholderBatch SpriteLoader.new in
  r.2 = map SpriteLoader.Promised [0; 1; 2; 3; 4]%nat
  /\ forall id, id ∈ ["player_idle"; "player_walk"; "enemy_basic"; "platform"; "background"] ->
       is_Some (SpriteLoader.get id
                  (SpriteLoader.run (map SpriteLoader.OnLoad [4; 2; 0; 1; 3]%nat) r.1)).
Proof.
  cbn zeta. split; [reflexivity|]. intros id Hin.
  assert (Hb : exists url, (id, url) ∈ placeholderBatch).
  { unfold placeholderBatch. rewrite !elem_of_cons in Hin.
    destruct Hin as [->|[->|[->|[->|[->|Hin]]]]]; [eexists; rewrite !elem_of_cons; eauto 10..|].
    now apply elem_of_nil in Hin. }
  destruct Hb as [url Hb].
  apply (X19_batch_loaded [] placeholderBatch [4; 2; 0; 1; 3]%nat) with (url := url);
    [|exact Hb].
  intros n Hn.
  change (SpriteLoader.Promised n
          ∈ (SpriteLoader.loadBatch placeholderBatch SpriteLoader.new).2) in Hn.
  replace (SpriteLoader.loadBatch placeholderBatch SpriteLoader.new).2
    with (map SpriteLoader.Promised [0; 1; 2; 3; 4]%nat) in Hn by reflexivity.
  cbn [map] in Hn. rewrite !elem_of_cons in Hn. rewrite !elem_of_cons.
  destruct Hn as [[= ->]|[[= ->]|[[= ->]|[[= ->]|[[= ->]|Hn]]]]]; auto 10.
  now apply elem_of_nil in Hn.
Defined.

(** * Further properties: mounting the page *)

Section Mounting.
Context {W : Type}.
Variable unsignedLong : float -> float.
Variable loaded : bool.

(** X20.  Mounting fails exactly when the canvas gives no 2d context (the
    first constructor throws).  Otherwise, when [onMount] returns, the first
    call of [gameLoop] has run in the state Menu: the next frame is
    requested, and the Start button is no longer the rectangle
    (0, 0, 200, 60) of the constructor but the one that [render] centres on
    the resized canvas, while the pause screen's buttons are still at
    (0, 0, 200, 60).  The page is in Menu with no observer, the world and the
    storage as they were, no key held, the player not yet on the ground and
    no sprites: mounting fetches no image and reads no clock, whether the
    images would load or not makes no difference to it. *)
Theorem X20_mounting now c (w : W) ls :
  (Page.onMount unsignedLong loaded now c w ls = None <-> canvas.context2d c = false)
  /\ (forall loaded' now',
        Page.onMount unsignedLong loaded' now' c w ls
        = Page.onMount unsignedLong loaded now c w ls)
  /\ (forall page, Page.onMount unsignedLong loaded now c w ls = Some page ->
        stateOf page = MENU /\ slotOf page = None
        /\ App.frameRequested (Page.app page) = true
        /\ App.world (Page.app page) = w /\ Page.localStorage page = ls
        /\ game.keys (GameplayState.game (screenOf page)) = ∅
        /\ GameplayState.sprites (screenOf page) = None
        /\ player.onGround (GameplayState.player (screenOf page)) = false
        /\ Page.menuState page
           = MenuState.render (GameplayState.canvas (screenOf page))
               (MenuState.mk (rect.mk 0 0 200 60))
        /\ untouched page
        /\ GameplayState.new unsignedLong c = Some (screenOf page)).
Proof.
  unfold Page.onMount, MenuState.new, PauseState.new.
  destruct (GameplayState.new unsignedLong c) as [this|] eqn:En.
  - unfold GameplayState.new in En. destruct (canvas.context2d c) eqn:Hc; [|discriminate].
    injection En as <-.
    cbn [GameplayState.canvas GameplayState.resizeCanvas canvas.context2d]. rewrite Hc.
    split; [split; discriminate|]. split; [reflexivity|].
    intros page [= <-]. unfold untouched. now repeat split.
  - unfold GameplayState.new in En. destruct (canvas.context2d c); [discriminate|].
    split; [now split|]. split; [reflexivity|]. discriminate.
Qed.

End Mounting.
